(** * Relax expression functors, TVMScript entry points and IR-builder ops

    A shallow embedding of
      - python/tvm/script/parser/relax/entry.py      (module [Entry]),
      - python/tvm/script/ir_builder/relax/ir.py     (module [IRBuilder]),
      - python/tvm/relax/expr_functor.py             (module [ExprFunctor]),
    together with the properties stated about them. *)

From stdpp Require Import base numbers option list strings gmap.

Set Warnings "-register-all".

Local Open Scope string_scope.
Local Open Scope Z_scope.

(** ** Python results: a call either returns a value or raises *)

Module Py.

Inductive exn :=
| NotImplementedError
| ValueError (msg : string)
| TypeError (msg : string)
| ConfigurationError (msg : string)
| InternalError (msg : string).

Inductive result (A : Type) :=
| Ok (a : A)
| Raise (e : exn).
Arguments Ok {A} a.
Arguments Raise {A} e.

Definition bind {A B} (r : result A) (k : A -> result B) : result B :=
  match r with
  | Ok a => k a
  | Raise e => Raise e
  end.

(** [[f(x) for x in xs]], stopping at the first element that raises. *)
Fixpoint mapM {A B} (f : A -> result B) (xs : list A) : result (list B) :=
  match xs with
  | [] => Ok []
  | x :: xs' => bind (f x) (fun y => bind (mapM f xs') (fun ys => Ok (y :: ys)))
  end.

(** Python values, as far as the functions below inspect them. *)
Inductive PrimExpr :=
| IntImm (value : Z)
| TirVar (name : string).

Inductive PyObj :=
| PyNone
| PyStr (s : string)
| PyInt (z : Z)
| PyList (items : list PyObj)
| PyTuple (items : list PyObj)
| PyDict (entries : list (PyObj * PyObj))
| PyPrimExpr (e : PrimExpr).

Definition is_none (o : PyObj) : bool :=
  match o with PyNone => true | _ => false end.

Definition is_str (o : PyObj) : bool :=
  match o with PyStr _ => true | _ => false end.

(** [isinstance(o, (tuple, list))] *)
Definition is_tuple_or_list (o : PyObj) : bool :=
  match o with PyList _ | PyTuple _ => true | _ => false end.

(** [len(o)]: defined on sized objects, [TypeError] on the others. *)
Definition len (o : PyObj) : result nat :=
  match o with
  | PyStr s => Ok (String.length s)
  | PyList items | PyTuple items => Ok (length items)
  | PyDict entries => Ok (length entries)
  | PyNone => Raise (TypeError "object of type 'NoneType' has no len()")
  | PyInt _ => Raise (TypeError "object of type 'int' has no len()")
  | PyPrimExpr (IntImm _) => Raise (TypeError "object of type 'IntImm' has no len()")
  | PyPrimExpr (TirVar _) => Raise (TypeError "object of type 'Var' has no len()")
  end.

End Py.

Export Py.

Declare Scope py_scope.
Delimit Scope py_scope with py.
Notation "x <- c1 ;; c2" := (Py.bind c1 (fun x => c2))
  (at level 100, c1 at next level, right associativity) : py_scope.

(** ** The Relax data model the three files build and traverse

    The node classes are imported by the three files ([tvm.relax],
    [tvm.relax.expr], [tvm.ir]) and declared elsewhere; they are given here
    with the fields the files and the spec's data model name. *)

Module Relax.

(** Modelled from the spec: the struct-info classes of [tvm.relax], by the
    arguments [entry.py] constructs them with. *)
Inductive StructInfo :=
| ObjectStructInfo
| PrimStructInfo (dtype : string)
| ShapeStructInfo (values : option (list PrimExpr)) (ndim : Z)
| TensorStructInfo (shape : option (list PrimExpr)) (dtype : option string) (ndim : Z)
| TupleStructInfo (fields : list StructInfo)
| FuncStructInfo (params : list StructInfo) (ret : StructInfo).

(** Modelled from the spec: [tvm.ir.Type], as carried by variables and
    functions. *)
Inductive Ty :=
| ObjectType
| ShapeType
| DynTensorType (ndim : Z) (dtype : string)
| PackedFuncType.

(** Modelled from the spec: the shape object attached to a variable. *)
Inductive ShapeObj :=
| ShapeValues (values : list PrimExpr)
| RuntimeDep.

(** Modelled from the spec: the optional source span of a node. *)
Inductive Span :=
| NoSpan
| SpanAt (source : string) (line column : Z).

(** Modelled from the spec: the attribute node of a call. *)
Record Attrs := MkAttrs { type_key : string; fields : list (string * PyObj) }.

(** Modelled from the spec: variables are shared by identity.  A tree holds
    the [Id] (and whether the variable is a [DataflowVar]); the variable
    object itself, with its name, shape and type, lives in the arena of the
    traversal. *)
Definition Id := nat.

(** Modelled from the spec: a reference to a [Var] or [DataflowVar]. *)
Record VarRef := MkVarRef { is_dataflow : bool; vid : Id }.

(** Modelled from the spec: a variable object. *)
Record VarNode := MkVarNode {
  name_hint : string;
  shape_ : option ShapeObj;
  checked_type_ : option Ty;
  var_span : Span }.

(** Modelled from the spec: the fourteen expression classes, the two
    binding classes and the two block classes that [expr_functor.py]
    imports and dispatches on. *)
Inductive Expr :=
| Constant (data : Z) (span : Span)
| Tuple (fields : list Expr) (span : Span)
| Var (vid : Id)
| DataflowVar (vid : Id)
| ShapeExpr (values : list PrimExpr) (span : Span)
| RuntimeDepShape (span : Span)
| ExternFunc (global_symbol : string) (span : Span)
| GlobalVar (name_hint : string) (span : Span)
| Function (params : list VarRef) (body : Expr) (ret_type : Ty) (span : Span)
| Call (op : Expr) (args : list Expr) (attrs : option Attrs)
       (sinfo_args : list StructInfo) (span : Span)
| SeqExpr (blocks : list BindingBlock) (body : Expr) (span : Span)
| If (cond true_branch false_branch : Expr) (span : Span)
| Op (name : string) (span : Span)
| TupleGetItem (tuple_value : Expr) (index : Z) (span : Span)
with Binding :=
| VarBinding (var : VarRef) (value : Expr)
| MatchShape (value : Expr) (pattern : list PrimExpr) (var : VarRef)
with BindingBlock :=
| PlainBlock (bindings : list Binding)
| DataflowBlock (bindings : list Binding).

#[global] Instance PrimExpr_eq_dec : EqDecision PrimExpr.
Proof. solve_decision. Defined.
#[global] Instance Ty_eq_dec : EqDecision Ty.
Proof. solve_decision. Defined.
#[global] Instance ShapeObj_eq_dec : EqDecision ShapeObj.
Proof. solve_decision. Defined.
#[global] Instance VarRef_eq_dec : EqDecision VarRef.
Proof. solve_decision. Defined.

(** Modelled from the spec: the expression a variable reference denotes at
    a use site. *)
Definition var_expr (v : VarRef) : Expr :=
  if is_dataflow v then DataflowVar (vid v) else Var (vid v).

End Relax.

Export Relax.

(** ** entry.py *)

Module Entry.

Local Open Scope py_scope.

(** class TensorProxy: the constructor stores its three arguments. *)
Record TensorProxy := MkTensorProxy {
  shape : PyObj;
  dtype : option string;
  ndim : Z }.

(** class MatchCastPair *)
Record MatchCastPair := MkMatchCastPair {
  value : PyObj;
  struct_info : PyObj }.

(** The proxy classes.  [BaseProxy] is a bare [StructInfoProxy]. *)
Inductive StructInfoProxy :=
| BaseProxy
| ProxyTensor (p : TensorProxy)
| CallableProxy (params : list StructInfoProxy) (ret : StructInfoProxy)
| TupleProxy (fields : list StructInfoProxy)
| ShapeProxy (values : option (list PyObj)) (ndim : Z)
| ObjectProxy
| PrimProxy (dtype : string).

Section Tensor.

(** How an object prints, [str(o)], is the object's own affair and the
    interpreter's: it is a parameter. *)
Variable py_str : PyObj -> string.

(** What an f-string puts in place of [{o}]: a [str] as it is, any other
    object as it prints. *)
Definition fstring_field (o : PyObj) : string :=
  match o with
  | PyStr s => s
  | _ => py_str o
  end.

(** [ValueError(f"shape must be a list or tuple, but got: {shape}")] *)
Definition Tensor_shape_error (shape : PyObj) : exn :=
  ValueError ("shape must be a list or tuple, but got: " ++ fstring_field shape).

(** def Tensor(shape=None, dtype=None, ndim=-1) *)
Definition Tensor (shape : PyObj) (dtype : option string) (ndim : Z)
  : result TensorProxy :=
  (* scalar tensor case *)
  shape1 <- (if is_none shape then Ok shape
             else n <- len shape ;;
                  Ok (if Nat.eqb n 0 then PyList [] else shape)) ;;
  let '(shape2, dtype2) :=
    match shape1, dtype with
    | PyStr s, None => (PyNone, Some s)
    | _, _ => (shape1, dtype)
    end in
  if negb (is_none shape2) && negb (is_tuple_or_list shape2)
  then Raise (Tensor_shape_error shape2)
  else Ok (MkTensorProxy shape2 dtype2 ndim).

End Tensor.

(** def match_cast(value, struct_info) *)
Definition match_cast (value struct_info : PyObj) : result MatchCastPair :=
  if is_none value then Raise (ValueError "value of match_cast cannot be None")
  else if is_none struct_info
       then Raise (ValueError "struct_info of match_cast cannot be None")
       else Ok (MkMatchCastPair value struct_info).

Section as_struct_info.

(** [dict_globals]: the names a TVMScript function was parsed under. *)
Definition Globals := list (string * PyObj).

(** Python's [eval(compile(expr, "<string>", "eval"), globals)] is the
    interpreter's, not this repository's: it is a parameter. *)
Variable py_eval : string -> Globals -> result PyObj.

(** def _eval_shape(expr, dict_globals) *)
Definition _eval_shape (expr : PyObj) (dict_globals : option Globals)
  : result PyObj :=
  match expr with
  | PyStr code => py_eval code (default [] dict_globals)
  | _ => Ok expr
  end.

(** Iterating over a Python value ([for s in self.shape]); a dict gives its
    keys. *)
Definition py_iter (o : PyObj) : result (list PyObj) :=
  match o with
  | PyList items | PyTuple items => Ok items
  | PyDict entries => Ok (map fst entries)
  | PyStr s => Ok (map (fun c => PyStr (String c EmptyString)) (String.list_ascii_of_string s))
  | PyNone => Raise (TypeError "'NoneType' object is not iterable")
  | PyInt _ => Raise (TypeError "'int' object is not iterable")
  | PyPrimExpr (IntImm _) => Raise (TypeError "'IntImm' object is not iterable")
  | PyPrimExpr (TirVar _) => Raise (TypeError "'Var' object is not iterable")
  end.

(** What the [TensorStructInfo]/[ShapeStructInfo] constructors accept as
    one dimension: a [PrimExpr], or an [int] which becomes an [IntImm]. *)
Definition to_prim_expr (o : PyObj) : result PrimExpr :=
  match o with
  | PyPrimExpr e => Ok e
  | PyInt z => Ok (IntImm z)
  | _ => Raise (TypeError "expected a PrimExpr")
  end.

Definition String_defined_shape_error : exn :=
  ValueError ("String-defined shape expr is only allowed when parsing function parameters "
              ++ "and return annotations for TVMScript.").

(** TensorProxy.as_struct_info *)
Definition TensorProxy_as_struct_info (self : TensorProxy)
    (dict_globals : option Globals) : result StructInfo :=
  if is_none (shape self)
  then Ok (TensorStructInfo None (dtype self) (ndim self))
  else
    items <- py_iter (shape self) ;;
    if bool_decide (dict_globals = None) && existsb is_str items
    then Raise String_defined_shape_error
    else
      shape' <- mapM (fun s => _eval_shape s dict_globals) items ;;
      dims <- mapM to_prim_expr shape' ;;
      Ok (TensorStructInfo (Some dims) (dtype self) (ndim self)).

(** The [as_struct_info] method of each proxy class. *)
Fixpoint as_struct_info (self : StructInfoProxy) (dict_globals : option Globals)
  : result StructInfo :=
  match self with
  | BaseProxy => Raise NotImplementedError
  | ProxyTensor p => TensorProxy_as_struct_info p dict_globals
  | CallableProxy params ret =>
      params' <- (fix each (ps : list StructInfoProxy) : result (list StructInfo) :=
                    match ps with
                    | [] => Ok []
                    | p :: ps' =>
                        s <- as_struct_info p dict_globals ;;
                        ss <- each ps' ;;
                        Ok (s :: ss)
                    end) params ;;
      ret' <- as_struct_info ret dict_globals ;;
      Ok (FuncStructInfo params' ret')
  | TupleProxy fields =>
      fields' <- (fix each (ps : list StructInfoProxy) : result (list StructInfo) :=
                    match ps with
                    | [] => Ok []
                    | p :: ps' =>
                        s <- as_struct_info p dict_globals ;;
                        ss <- each ps' ;;
                        Ok (s :: ss)
                    end) fields ;;
      Ok (TupleStructInfo fields')
  | ShapeProxy values ndim =>
      (* [... if self.values else None]: [None] and the empty list are falsy *)
      match values with
      | Some (v :: vs) =>
          values' <- mapM (fun v => _eval_shape v dict_globals) (v :: vs) ;;
          dims <- mapM to_prim_expr values' ;;
          Ok (ShapeStructInfo (Some dims) ndim)
      | _ => Ok (ShapeStructInfo None ndim)
      end
  | ObjectProxy => Ok ObjectStructInfo
  | PrimProxy dtype => Ok (PrimStructInfo dtype)
  end.

(** StructInfoProxy.asobject *)
Definition asobject (self : StructInfoProxy) : result StructInfo :=
  as_struct_info self None.

End as_struct_info.

Section get_symbolic_vars.

(** [str.isidentifier] is the interpreter's: it is a parameter. *)
Variable isidentifier : string -> bool.

(** [{s for s in items if isinstance(s, str) and s.isidentifier()}] *)
Definition identifiers_of (items : list PyObj) : gset string :=
  list_to_set
    (omap (fun s => match s with
                    | PyStr name => if isidentifier name then Some name else None
                    | _ => None
                    end) items).

(** TensorProxy.get_symbolic_vars.  The [{}] returned for a [None] shape is
    an empty dict: it holds no name. *)
Definition TensorProxy_get_symbolic_vars (self : TensorProxy) : result (gset string) :=
  if is_none (shape self) then Ok ∅
  else items <- py_iter (shape self) ;; Ok (identifiers_of items).

(** The [get_symbolic_vars] method of each proxy class.  A [CallableProxy]
    unites the names of its parameters ([self.params]) only; the [{}] a
    [ShapeProxy] returns for [None] values is an empty dict. *)
Fixpoint get_symbolic_vars (self : StructInfoProxy) : result (gset string) :=
  match self with
  | BaseProxy => Ok ∅
  | ProxyTensor p => TensorProxy_get_symbolic_vars p
  | CallableProxy params _ =>
      vars <- (fix each (ps : list StructInfoProxy) : result (list (gset string)) :=
                 match ps with
                 | [] => Ok []
                 | p :: ps' =>
                     v <- get_symbolic_vars p ;;
                     vs <- each ps' ;;
                     Ok (v :: vs)
                 end) params ;;
      Ok (⋃ vars)
  | TupleProxy fields =>
      vars <- (fix each (ps : list StructInfoProxy) : result (list (gset string)) :=
                 match ps with
                 | [] => Ok []
                 | p :: ps' =>
                     v <- get_symbolic_vars p ;;
                     vs <- each ps' ;;
                     Ok (v :: vs)
                 end) fields ;;
      Ok (⋃ vars)
  | ShapeProxy values _ =>
      match values with
      | None => Ok ∅
      | Some items => Ok (identifiers_of items)
      end
  | ObjectProxy => Ok ∅
  | PrimProxy _ => Ok ∅
  end.

End get_symbolic_vars.

(** No dimension of a tensor proxy and no value of a shape proxy, at any
    depth, is written as a string. *)
Definition TensorProxy_string_free (self : TensorProxy) : bool :=
  match py_iter (shape self) with
  | Ok items => negb (existsb is_str items)
  | Raise _ => true
  end.

Definition ShapeProxy_string_free (values : option (list PyObj)) : bool :=
  match values with
  | Some items => negb (existsb is_str items)
  | None => true
  end.

(** The struct info has the form of the proxy: the same class at every
    node, with the proxy's dtype and ndim, as many fields or parameters, and
    for a shape one dimension for each of the proxy's values, the values
    that are not strings being kept as they are and an empty list of values
    counting as none. *)
Inductive mirrors : StructInfoProxy -> StructInfo -> Prop :=
| mirrors_tensor p dims :
    (dims = None <-> shape p = PyNone) ->
    mirrors (ProxyTensor p) (TensorStructInfo dims (dtype p) (ndim p))
| mirrors_callable params ret params' ret' :
    Forall2 mirrors params params' -> mirrors ret ret' ->
    mirrors (CallableProxy params ret) (FuncStructInfo params' ret')
| mirrors_tuple fields fields' :
    Forall2 mirrors fields fields' ->
    mirrors (TupleProxy fields) (TupleStructInfo fields')
| mirrors_shape values ndim dims :
    (dims = None <-> values = None \/ values = Some []) ->
    (forall ds, dims = Some ds ->
       exists vs, values = Some vs /\
                  Forall2 (fun v d => is_str v = false -> to_prim_expr v = Ok d) vs ds) ->
    mirrors (ShapeProxy values ndim) (ShapeStructInfo dims ndim)
| mirrors_object : mirrors ObjectProxy ObjectStructInfo
| mirrors_prim dtype : mirrors (PrimProxy dtype) (PrimStructInfo dtype).

Fixpoint string_free (self : StructInfoProxy) : bool :=
  match self with
  | ProxyTensor p => TensorProxy_string_free p
  | CallableProxy params ret => forallb string_free params && string_free ret
  | TupleProxy fields => forallb string_free fields
  | ShapeProxy values _ => ShapeProxy_string_free values
  | BaseProxy | ObjectProxy | PrimProxy _ => true
  end.

(** The strings among a list of values. *)
Definition strings_of (items : list PyObj) : list string :=
  omap (fun o => match o with PyStr s => Some s | _ => None end) items.

(** The strings written as values of the shape proxies inside a proxy. *)
Fixpoint shape_strings (self : StructInfoProxy) : list string :=
  match self with
  | ShapeProxy values _ =>
      match values with
      | Some items => strings_of items
      | None => []
      end
  | CallableProxy params ret => concat (map shape_strings params) ++ shape_strings ret
  | TupleProxy fields => concat (map shape_strings fields)
  | BaseProxy | ProxyTensor _ | ObjectProxy | PrimProxy _ => []
  end.

End Entry.

(** ** ir_builder/relax/ir.py *)

Module IRBuilder.

Import Entry.
Local Open Scope py_scope.

(** One element of [sinfo_args]: a [StructInfo] object, a proxy (an
    [ObjectGeneric]) or a callable such as [R.Tensor], which is called
    without arguments. *)
Inductive SInfoValue :=
| StructInfoObj (s : StructInfo)
| ProxyObj (p : StructInfoProxy).

Inductive SInfoArg :=
| Plain (v : SInfoValue)
| Callable (call : result SInfoValue).

(** The keyword argument [sinfo_args] as a whole. *)
Inductive SInfoArgs :=
| SInfoNone
| SInfoSingle (a : SInfoArg)
| SInfoTuple (items : list SInfoArg)
| SInfoList (items : list SInfoArg).

(** [**kwargs]: a dict with string keys. *)
Definition Kwargs := list (string * PyObj).

Definition dict_get (k : string) (d : Kwargs) : option PyObj :=
  snd <$> List.find (fun kv => bool_decide (fst kv = k)) d.

Definition dict_pop (k : string) (d : Kwargs) : Kwargs :=
  List.filter (fun kv => negb (bool_decide (fst kv = k))) d.

Section call_packed.

Variable py_eval : string -> Globals -> result PyObj.

(** [tvm.ir.attrs.make_node(type_key, **kwargs)] is not part of these
    files: it is a parameter. *)
Variable make_node : PyObj -> Kwargs -> result Attrs.

(** The tuple/list/single normalisation at the head of [call_packed]. *)
Definition normalize_sinfo_args (sinfo_args : SInfoArgs) : list SInfoArg :=
  match sinfo_args with
  | SInfoTuple items => items
  | SInfoList items => items
  | SInfoSingle a => [a]
  | SInfoNone => []
  end.

(** The body of the [for i, sinfo_arg in enumerate(sinfo_args)] loop. *)
Definition convert_sinfo_arg (sinfo_arg : SInfoArg) : result StructInfo :=
  v <- (match sinfo_arg with
        | Callable call => call
        | Plain v => Ok v
        end) ;;
  (* Convert possible StructInfoProxy to StructInfo *)
  match v with
  | ProxyObj p => asobject py_eval p
  | StructInfoObj s => Ok s
  end.

(** The [attrs_type_key] handling at the tail of [call_packed]. *)
Definition call_packed_attrs (kwargs : Kwargs) : result (option Attrs) :=
  let '(attrs_type_key, kwargs', is_default) :=
    match dict_get "attrs_type_key" kwargs with
    | Some k => (k, dict_pop "attrs_type_key" kwargs, false)
    | None => (PyStr "DictAttrs", kwargs, true)
    end in
  if negb (bool_decide (kwargs' = [])) || negb is_default
  then a <- make_node attrs_type_key kwargs' ;; Ok (Some a)
  else Ok None.

(** [R.Tensor] passed uncalled, as in [sinfo_args=R.Tensor]. *)
Definition R_Tensor (py_str : PyObj -> string) : SInfoArg :=
  Callable (p <- Tensor py_str PyNone None (-1) ;; Ok (ProxyObj (ProxyTensor p))).

(** def call_packed(func, *args, sinfo_args, **kwargs).  The arguments
    annotated [Expr] are Relax expressions already, on which the
    [args_converter.auto] decorator changes nothing. *)
Definition call_packed (func : string) (args : list Expr)
    (sinfo_args : SInfoArgs) (kwargs : Kwargs) : result Expr :=
  let op := ExternFunc func NoSpan in
  match sinfo_args with
  | SInfoNone => Raise (ValueError "R.call_packed is required to have type_args")
  | _ =>
      sinfo_args' <- mapM convert_sinfo_arg (normalize_sinfo_args sinfo_args) ;;
      attrs <- call_packed_attrs kwargs ;;
      Ok (Call op args attrs sinfo_args' NoSpan)
  end.

End call_packed.

(** An argument of an operator wrapped by [_sinfo_arg_wrapper]: a list, a
    tuple, a dict with string keys (as [**kwargs] is), a Python function
    (given by what calling it without arguments does), a proxy, or any
    other object. *)
Inductive Atom :=
| AtomNone
| AtomStr (s : string)
| AtomInt (z : Z)
| AtomExpr (e : Expr)
| AtomStructInfo (s : StructInfo).

Inductive WArg :=
| WList (items : list WArg)
| WTuple (items : list WArg)
| WDict (entries : list (string * WArg))
| WFunction (call : result WArg)
| WProxy (p : StructInfoProxy)
| WOther (a : Atom).

Section _sinfo_arg_wrapper.

Variable py_eval : string -> Globals -> result PyObj.

(** The tail of [_convert_tensor_type]: a function has been called, a
    proxy is turned into its [StructInfo]. *)
Definition convert_object (args : WArg) : result WArg :=
  match args with
  | WProxy p => s <- asobject py_eval p ;; Ok (WOther (AtomStructInfo s))
  | _ => Ok args
  end.

(** def _convert_tensor_type(args) *)
Fixpoint _convert_tensor_type (args : WArg) : result WArg :=
  match args with
  | WList items =>
      new_args <- (fix each (xs : list WArg) : result (list WArg) :=
                     match xs with
                     | [] => Ok []
                     | x :: xs' =>
                         y <- _convert_tensor_type x ;;
                         ys <- each xs' ;;
                         Ok (y :: ys)
                     end) items ;;
      Ok (WList new_args)
  | WTuple items =>
      new_args <- (fix each (xs : list WArg) : result (list WArg) :=
                     match xs with
                     | [] => Ok []
                     | x :: xs' =>
                         y <- _convert_tensor_type x ;;
                         ys <- each xs' ;;
                         Ok (y :: ys)
                     end) items ;;
      Ok (WTuple new_args)
  | WDict entries =>
      new_entries <- (fix each (kvs : list (string * WArg))
                        : result (list (string * WArg)) :=
                        match kvs with
                        | [] => Ok []
                        | (k, v) :: kvs' =>
                            v' <- _convert_tensor_type v ;;
                            rest <- each kvs' ;;
                            Ok ((k, v') :: rest)
                        end) entries ;;
      Ok (WDict new_entries)
  | WFunction call => args' <- call ;; convert_object args'
  | WProxy _ | WOther _ => convert_object args
  end.

(** [_convert_tensor_type] on the positional arguments and on the keyword
    arguments of a call. *)
Definition convert_args (args : list WArg) : result (list WArg) :=
  mapM _convert_tensor_type args.

Definition convert_kwargs (kwargs : list (string * WArg))
  : result (list (string * WArg)) :=
  mapM (fun kv => v <- _convert_tensor_type (snd kv) ;; Ok (fst kv, v)) kwargs.

(** def _sinfo_arg_wrapper(func): the function [wrapped] it returns. *)
Definition _sinfo_arg_wrapper {R} (func : list WArg -> list (string * WArg) -> result R)
    (args : list WArg) (kwargs : list (string * WArg)) : result R :=
  args' <- convert_args args ;;
  kwargs' <- convert_kwargs kwargs ;;
  func args' kwargs'.

End _sinfo_arg_wrapper.

(** Neither a function nor a proxy occurs in the argument. *)
Fixpoint converted (args : WArg) : bool :=
  match args with
  | WList items | WTuple items => forallb converted items
  | WDict entries => forallb (fun kv => converted (snd kv)) entries
  | WFunction _ | WProxy _ => false
  | WOther _ => true
  end.

(** Every function in the argument returns a proxy or a plain object. *)
Fixpoint functions_return_objects (args : WArg) : bool :=
  match args with
  | WList items | WTuple items => forallb functions_return_objects items
  | WDict entries => forallb (fun kv => functions_return_objects (snd kv)) entries
  | WFunction (Ok (WProxy _)) | WFunction (Ok (WOther _)) | WFunction (Raise _) => true
  | WFunction (Ok _) => false
  | WProxy _ | WOther _ => true
  end.

End IRBuilder.

(** ** relax/expr_functor.py *)

Module ExprFunctor.

(** *** Node kinds and method names *)

(** The fourteen expression classes the functors dispatch on. *)
Inductive ExprKind :=
| KConstant | KTuple | KVar | KDataflowVar | KShapeExpr | KRuntimeDepShape
| KExternFunc | KGlobalVar | KFunction | KCall | KSeqExpr | KIf | KOp
| KTupleGetItem.

#[global] Instance ExprKind_eq_dec : EqDecision ExprKind.
Proof. solve_decision. Defined.

Definition all_kinds : list ExprKind :=
  [KConstant; KTuple; KVar; KDataflowVar; KShapeExpr; KRuntimeDepShape;
   KExternFunc; KGlobalVar; KFunction; KCall; KSeqExpr; KIf; KOp; KTupleGetItem].

Definition kind_of (e : Expr) : ExprKind :=
  match e with
  | Constant _ _ => KConstant
  | Tuple _ _ => KTuple
  | Var _ => KVar
  | DataflowVar _ => KDataflowVar
  | ShapeExpr _ _ => KShapeExpr
  | RuntimeDepShape _ => KRuntimeDepShape
  | ExternFunc _ _ => KExternFunc
  | GlobalVar _ _ => KGlobalVar
  | Function _ _ _ _ => KFunction
  | Call _ _ _ _ _ => KCall
  | SeqExpr _ _ _ => KSeqExpr
  | If _ _ _ _ => KIf
  | Op _ _ => KOp
  | TupleGetItem _ _ _ => KTupleGetItem
  end.

Definition kind_name (k : ExprKind) : string :=
  match k with
  | KConstant => "constant"
  | KTuple => "tuple"
  | KVar => "var"
  | KDataflowVar => "dataflow_var"
  | KShapeExpr => "shape_expr"
  | KRuntimeDepShape => "runtime_dep_shape"
  | KExternFunc => "extern_func"
  | KGlobalVar => "global_var"
  | KFunction => "function"
  | KCall => "call"
  | KSeqExpr => "seq_expr"
  | KIf => "if"
  | KOp => "op"
  | KTupleGetItem => "tuple_getitem"
  end.

(** The overridable methods of [PyExprVisitor]: [visit_ k] stands for
    [visit_constant_], [visit_tuple_], ... *)
Inductive VisitMethod :=
| visit_expr
| visit_ (k : ExprKind)
| visit_binding
| visit_var_binding_
| visit_match_shape_
| visit_binding_block
| visit_binding_block_
| visit_dataflow_block_
| visit_var_def
| visit_var_def_
| visit_dataflow_var_def_
| visit_type
| visit_span.

(** The overridable methods of [PyExprMutator]: the visit methods and
    [rewrite_post_order k] for [rewrite_constant_post_order], ... *)
Inductive MutatorMethod :=
| Visit (m : VisitMethod)
| rewrite_post_order (k : ExprKind).

Definition visit_method_name (m : VisitMethod) : string :=
  match m with
  | visit_expr => "visit_expr"
  | visit_ k => "visit_" ++ kind_name k ++ "_"
  | visit_binding => "visit_binding"
  | visit_var_binding_ => "visit_var_binding_"
  | visit_match_shape_ => "visit_match_shape_"
  | visit_binding_block => "visit_binding_block"
  | visit_binding_block_ => "visit_binding_block_"
  | visit_dataflow_block_ => "visit_dataflow_block_"
  | visit_var_def => "visit_var_def"
  | visit_var_def_ => "visit_var_def_"
  | visit_dataflow_var_def_ => "visit_dataflow_var_def_"
  | visit_type => "visit_type"
  | visit_span => "visit_span"
  end.

Definition mutator_method_name (m : MutatorMethod) : string :=
  match m with
  | Visit m => visit_method_name m
  | rewrite_post_order k => "rewrite_" ++ kind_name k ++ "_post_order"
  end.

(** PyExprVisitor._tvm_metadata["methods"] *)
Definition PyExprVisitor_methods : list VisitMethod :=
  [visit_expr] ++ map visit_ all_kinds ++
  [visit_binding; visit_var_binding_; visit_match_shape_;
   visit_binding_block; visit_binding_block_; visit_dataflow_block_;
   visit_var_def; visit_var_def_; visit_dataflow_var_def_;
   visit_type; visit_span].

(** PyExprMutator._tvm_metadata["methods"] *)
Definition PyExprMutator_methods : list MutatorMethod :=
  map Visit PyExprVisitor_methods ++ map rewrite_post_order all_kinds.

(** The four generic dispatchers. *)
Definition is_dispatcher (m : VisitMethod) : bool :=
  match m with
  | visit_expr | visit_binding | visit_binding_block | visit_var_def => true
  | _ => false
  end.

(** What a method receives. *)
Definition arg_ty (m : VisitMethod) : Type :=
  match m with
  | visit_expr | visit_ _ => Expr
  | visit_binding | visit_var_binding_ | visit_match_shape_ => Binding
  | visit_binding_block | visit_binding_block_ | visit_dataflow_block_ => BindingBlock
  | visit_var_def | visit_var_def_ | visit_dataflow_var_def_ => VarRef
  | visit_type => Ty
  | visit_span => Span
  end.

(** What a mutator method returns: bindings are emitted, not returned. *)
Definition ret_ty (m : VisitMethod) : Type :=
  match m with
  | visit_expr | visit_ _ => Expr
  | visit_binding | visit_var_binding_ | visit_match_shape_ => unit
  | visit_binding_block | visit_binding_block_ | visit_dataflow_block_ => BindingBlock
  | visit_var_def | visit_var_def_ | visit_dataflow_var_def_ => VarRef
  | visit_type => Ty
  | visit_span => Span
  end.

(** *** Stateful computations that may raise *)

Definition ST (S A : Type) : Type := S -> result (A * S).

Definition ret {S A} (a : A) : ST S A := fun s => Ok (a, s).

Definition bindS {S A B} (m : ST S A) (k : A -> ST S B) : ST S B :=
  fun s => match m s with
           | Ok (a, s') => k a s'
           | Raise e => Raise e
           end.

Definition raise {S A} (e : exn) : ST S A := fun _ => Raise e.

Declare Scope st_scope.
Delimit Scope st_scope with st.
Notation "x <- c1 ;; c2" := (bindS c1 (fun x => c2))
  (at level 100, c1 at next level, right associativity) : st_scope.
Notation "c1 ;;; c2" := (bindS c1 (fun _ => c2))
  (at level 100, right associativity) : st_scope.

Local Open Scope st_scope.

(** [[f(x) for x in xs]] with the state threaded left to right. *)
Definition mapS {S A B} (f : A -> ST S B) : list A -> ST S (list B) :=
  fix go (xs : list A) : ST S (list B) :=
    match xs with
    | [] => ret []
    | x :: xs' => y <- f x ;; ys <- go xs' ;; ret (y :: ys)
    end.

(** [for x in xs: f(x)] *)
Definition iterS {S A} (f : A -> ST S unit) : list A -> ST S unit :=
  fix go (xs : list A) : ST S unit :=
    match xs with
    | [] => ret tt
    | x :: xs' => f x ;;; go xs'
    end.

(** The computation returns on every state. *)
Definition returnsS {S A} (m : ST S A) : Prop :=
  forall s, exists a s', m s = Ok (a, s').

(** Two computations agree on every state. *)
Definition eqS {S A} (m m' : ST S A) : Prop := forall s, m s = m' s.

(** A handler slot that falls back to the engine's default when unset. *)
Definition or_default {S X Y} (h : option (X -> ST S Y)) (d : X -> ST S Y)
  : X -> ST S Y :=
  match h with
  | Some f => f
  | None => d
  end.

(** *** The visitor *)

Section visitor.

(** What the user's handlers keep on [self] (counters, collected nodes). *)
Context {U : Type}.

(** A subclass of [PyExprVisitor], given by the methods it overrides. *)
Definition VisitorClass : Type :=
  forall m : VisitMethod, option (arg_ty m -> ST U unit).

(** class _PyExprVisitor: the object [__init__] builds from its [f_visit_*]
    arguments, one optional callable per method name. *)
Record _PyExprVisitor := Make_PyExprVisitor {
  f_visit : forall m : VisitMethod, option (arg_ty m -> ST U unit) }.

(** Modelled from the spec: the decorator [visitor = derived_object], whose
    code (tvm.meta_schedule.utils) is not in these files.  Construction is a
    pure composition step: each overridden method fills its handler slot and
    an omitted one is left unset, so that the engine default applies. *)
Definition visitor (cls : VisitorClass) : _PyExprVisitor :=
  Make_PyExprVisitor cls.

Section visitor_engine.

Variable self : _PyExprVisitor.

(** Modelled from the spec: the traversal engine behind
    [_ffi_api.PyExprVisitorVisitExpr], [..VisitBinding], [..VisitBindingBlock]
    and [..VisitVarDef], which is not in these files.  A supplied handler
    replaces the default; the default recurses into every child from left
    to right, then visits the types and spans the node carries. *)
Definition VisitSpan : Span -> ST U unit :=
  or_default (f_visit self visit_span) (fun _ => ret tt).

(** Modelled from the spec: the engine's [VisitType]. *)
Definition VisitType : Ty -> ST U unit :=
  or_default (f_visit self visit_type) (fun _ => ret tt).

(** Modelled from the spec: the engine's [VisitVarDef], which dispatches on
    the kind of variable. *)
Definition VisitVarDef : VarRef -> ST U unit :=
  or_default (f_visit self visit_var_def)
    (fun var =>
       if is_dataflow var
       then or_default (f_visit self visit_dataflow_var_def_) (fun _ => ret tt) var
       else or_default (f_visit self visit_var_def_) (fun _ => ret tt) var).

(** Modelled from the spec: the default of [visit_K_], over the dispatchers
    it recurs through. *)
Definition VisitExpr_ (visit_expr : Expr -> ST U unit)
    (visit_binding_block : BindingBlock -> ST U unit) (e : Expr) : ST U unit :=
  match e with
  | Constant _ span | ShapeExpr _ span | RuntimeDepShape span
  | ExternFunc _ span | GlobalVar _ span | Op _ span => VisitSpan span
  | Var _ | DataflowVar _ => ret tt
  | Tuple fields span =>
      iterS visit_expr fields ;;; VisitSpan span
  | Function params body ret_type span =>
      iterS VisitVarDef params ;;; visit_expr body ;;;
      VisitType ret_type ;;; VisitSpan span
  | Call op args _ _ span =>
      visit_expr op ;;; iterS visit_expr args ;;; VisitSpan span
  | SeqExpr blocks body span =>
      iterS visit_binding_block blocks ;;; visit_expr body ;;; VisitSpan span
  | If cond true_branch false_branch span =>
      visit_expr cond ;;; visit_expr true_branch ;;; visit_expr false_branch ;;;
      VisitSpan span
  | TupleGetItem tuple_value _ span =>
      visit_expr tuple_value ;;; VisitSpan span
  end.

(** Modelled from the spec: the default of [visit_var_binding_] and
    [visit_match_shape_]. *)
Definition VisitBinding_ (visit_expr : Expr -> ST U unit) (b : Binding)
  : ST U unit :=
  match b with
  | VarBinding var value => visit_expr value ;;; VisitVarDef var
  | MatchShape value _ var => visit_expr value ;;; VisitVarDef var
  end.

(** Modelled from the spec: the three dispatchers of the engine. *)
Fixpoint VisitExpr (e : Expr) : ST U unit :=
  match f_visit self visit_expr with
  | Some f => f e
  | None =>
      match f_visit self (visit_ (kind_of e)) with
      | Some f => f e
      | None => VisitExpr_ VisitExpr VisitBindingBlock e
      end
  end
with VisitBinding (b : Binding) : ST U unit :=
  match f_visit self visit_binding with
  | Some f => f b
  | None =>
      match b with
      | VarBinding var value =>
          match f_visit self visit_var_binding_ with
          | Some f => f b
          | None => VisitBinding_ VisitExpr b
          end
      | MatchShape value _ var =>
          match f_visit self visit_match_shape_ with
          | Some f => f b
          | None => VisitBinding_ VisitExpr b
          end
      end
  end
with VisitBindingBlock (block : BindingBlock) : ST U unit :=
  match f_visit self visit_binding_block with
  | Some f => f block
  | None =>
      match block with
      | PlainBlock bindings =>
          match f_visit self visit_binding_block_ with
          | Some f => f block
          | None => iterS VisitBinding bindings
          end
      | DataflowBlock bindings =>
          match f_visit self visit_dataflow_block_ with
          | Some f => f block
          | None => iterS VisitBinding bindings
          end
      end
  end.

End visitor_engine.

(** class PyExprVisitor: the body of each method as the source defines it.
    The four dispatchers call the engine on [self._outer()], every other
    method is [raise NotImplementedError]. *)
Definition PyExprVisitor_method (cls : VisitorClass) (m : VisitMethod)
  : arg_ty m -> ST U unit :=
  match m with
  | visit_expr => VisitExpr (visitor cls)
  | visit_binding => VisitBinding (visitor cls)
  | visit_binding_block => VisitBindingBlock (visitor cls)
  | visit_var_def => VisitVarDef (visitor cls)
  | visit_ _ => fun _ => raise NotImplementedError
  | visit_var_binding_ => fun _ => raise NotImplementedError
  | visit_match_shape_ => fun _ => raise NotImplementedError
  | visit_binding_block_ => fun _ => raise NotImplementedError
  | visit_dataflow_block_ => fun _ => raise NotImplementedError
  | visit_var_def_ => fun _ => raise NotImplementedError
  | visit_dataflow_var_def_ => fun _ => raise NotImplementedError
  | visit_type => fun _ => raise NotImplementedError
  | visit_span => fun _ => raise NotImplementedError
  end.

(** Calling method [m] on an instance of the subclass [cls]: the override
    when there is one, the inherited body otherwise. *)
Definition visitor_call (cls : VisitorClass) (m : VisitMethod)
  : arg_ty m -> ST U unit :=
  match cls m with
  | Some f => f
  | None => PyExprVisitor_method cls m
  end.

(** A subclass that overrides nothing. *)
Definition no_visitor_overrides : VisitorClass := fun _ => None.

End visitor.

(** *** The mutator *)

(** Modelled from the spec: the state of one mutator instance. *)
Record MutState := MkMutState {
  var_remap_ : gmap Id VarRef;       (* identity of the old var -> new var *)
  arena : gmap Id VarNode;           (* the variable objects, by identity *)
  block_stack : list (list Binding); (* the builder: blocks under construction *)
  binding_table : gmap Id Expr }.    (* the builder: value bound to each var *)

Abbreviation M := (ST MutState).

Definition with_var_remap (r : gmap Id VarRef) (st : MutState) : MutState :=
  MkMutState r (arena st) (block_stack st) (binding_table st).

Definition with_arena (a : gmap Id VarNode) (st : MutState) : MutState :=
  MkMutState (var_remap_ st) a (block_stack st) (binding_table st).

Definition with_block_stack (b : list (list Binding)) (st : MutState) : MutState :=
  MkMutState (var_remap_ st) (arena st) b (binding_table st).

Definition with_binding_table (t : gmap Id Expr) (st : MutState) : MutState :=
  MkMutState (var_remap_ st) (arena st) (block_stack st) t.

(** A mutator that has not traversed anything yet ([PyExprMutator.__init__]
    gives it a new [BlockBuilder]), over the variables of the program it is
    given. *)
Definition new_state (a : gmap Id VarNode) : MutState :=
  MkMutState ∅ a [] ∅.

(** What a mutator method receives and returns. *)
Definition marg_ty (m : MutatorMethod) : Type :=
  match m with
  | Visit m => arg_ty m
  | rewrite_post_order _ => Expr
  end.

Definition mret_ty (m : MutatorMethod) : Type :=
  match m with
  | Visit m => ret_ty m
  | rewrite_post_order _ => Expr
  end.

(** A subclass of [PyExprMutator], given by the methods it overrides; these
    are also the [f_visit_*] and [f_rewrite_*_post_order] arguments of
    [_PyExprMutator.__init__], which hands them to
    [_ffi_api.MakePyExprMutator] unchanged. *)
Definition MutatorClass : Type :=
  forall m : MutatorMethod, option (marg_ty m -> M (mret_ty m)).

Definition supplied {A} (o : option A) : bool :=
  match o with
  | Some _ => true
  | None => false
  end.

(** Modelled from the spec: the customization of one expression kind. *)
Inductive Slot :=
| Unset
| Override (f : Expr -> M Expr)
| PostOrder (h : Expr -> M Expr).

(** Two configurations of a kind agree up to an identity hook. *)
Definition same_or_identity_hook (s s' : Slot) : Prop :=
  s' = s \/ (s = Unset /\ s' = PostOrder ret).

(** Modelled from the spec: the mutator object of the engine. *)
Record Mutator := MkMutator {
  expr_slot : ExprKind -> Slot;
  generic : forall m : VisitMethod, option (arg_ty m -> M (ret_ty m)) }.

Definition both_supplied (f : MutatorClass) (k : ExprKind) : bool :=
  supplied (f (Visit (visit_ k))) && supplied (f (rewrite_post_order k)).

Definition slot_of (f : MutatorClass) (k : ExprKind) : Slot :=
  match f (Visit (visit_ k)), f (rewrite_post_order k) with
  | Some g, _ => Override g
  | None, Some h => PostOrder h
  | None, None => Unset
  end.

(** Modelled from the spec: [_ffi_api.MakePyExprMutator], which is not in
    these files.  Construction rejects a direct override together with a
    post-order hook for the same kind; otherwise each kind is configured as
    unset, overridden or hooked. *)
Definition MakePyExprMutator (f : MutatorClass) : result Mutator :=
  if existsb (both_supplied f) all_kinds
  then Raise (ConfigurationError
                "Cannot override visit function and post-order rewrite at the same time")
  else Ok (MkMutator (slot_of f) (fun m => f (Visit m))).

(** Modelled from the spec: the decorator [mutator = derived_object], whose
    code is not in these files; it instantiates [_PyExprMutator] with the
    overridden methods of the class, the omitted ones being left unset. *)
Definition mutator (cls : MutatorClass) : result Mutator :=
  MakePyExprMutator cls.

(** Modelled from the spec: [_ffi_api.PyExprMutatorSetVarRemap]. *)
Definition set_var_remap (vid : Id) (var : VarRef) : M unit :=
  fun st => Ok (tt, with_var_remap (<[vid := var]> (var_remap_ st)) st).

(** Modelled from the spec: [_ffi_api.PyExprMutatorGetVarRemap]. *)
Definition get_var_remap (vid : Id) : M (option VarRef) :=
  fun st => Ok (var_remap_ st !! vid, st).

(** Modelled from the spec: [_ffi_api.PyExprMutatorLookupBinding], the
    value most recently bound to [var], absent when there is none. *)
Definition lookup_binding (var : VarRef) : M (option Expr) :=
  fun st => Ok (binding_table st !! vid var, st).

(** Modelled from the spec: the shape and type of a variable object are the
    specified ones. *)
Definition matches (node : VarNode) (shape : option ShapeObj) (t : Ty) : bool :=
  bool_decide (shape_ node = shape) && bool_decide (checked_type_ node = Some t).

(** Modelled from the spec: [_ffi_api.PyExprMutatorWithShapeAndType].  A
    new variable object with the given shape and type is allocated under a
    fresh identity when the shape or type of [var] does not match; the
    object of [var] is left as it is. *)
Definition with_shape_and_type (var : VarRef) (shape : option ShapeObj) (t : Ty)
  : M VarRef :=
  fun st =>
    match arena st !! vid var with
    | None => Raise (InternalError "undefined variable")
    | Some node =>
        if matches node shape t then Ok (var, st)
        else
          let new_id := fresh (dom (arena st)) in
          let new_node := MkVarNode (name_hint node) shape (Some t) (var_span node) in
          Ok (MkVarRef (is_dataflow var) new_id,
              with_arena (<[new_id := new_node]> (arena st)) st)
    end.

Definition binding_var (b : Binding) : VarRef :=
  match b with
  | VarBinding var _ => var
  | MatchShape _ _ var => var
  end.

Definition binding_value (b : Binding) : Expr :=
  match b with
  | VarBinding _ value => value
  | MatchShape value _ _ => value
  end.

(** Modelled from the spec: the builder that accumulates the bindings of
    the block under construction.  [emit] appends to the innermost open
    block and records the value bound to the variable. *)
Definition emit (b : Binding) : M unit :=
  fun st =>
    match block_stack st with
    | [] => Raise (InternalError "no binding block under construction")
    | frame :: outer =>
        Ok (tt, with_binding_table
                  (<[vid (binding_var b) := binding_value b]> (binding_table st))
                  (with_block_stack ((frame ++ [b])%list :: outer) st))
    end.

(** Modelled from the spec: opening a builder scope for a new block. *)
Definition begin_block : M unit :=
  fun st => Ok (tt, with_block_stack ([] :: block_stack st) st).

(** Modelled from the spec: closing the builder scope gives the bindings
    emitted into it. *)
Definition end_block : M (list Binding) :=
  fun st =>
    match block_stack st with
    | [] => Raise (InternalError "no binding block under construction")
    | frame :: outer => Ok (frame, with_block_stack outer st)
    end.

(** Modelled from the spec: the scope [visit_with_new_scope] opens.  The
    remap table is saved on entry and restored when the scope closes. *)
Definition in_new_scope {A} (m : M A) : M A :=
  fun st =>
    match m st with
    | Ok (a, st') => Ok (a, with_var_remap (var_remap_ st) st')
    | Raise e => Raise e
    end.

Section mutator_engine.

(** The struct-info inference the engine calls into is an external
    collaborator: the shape and type of an expression, given the variables
    in scope. *)
Variable infer : gmap Id VarNode -> Expr -> option ShapeObj * Ty.

Variable self : Mutator.

(** Modelled from the spec: the traversal engine behind
    [_ffi_api.PyExprMutatorVisitExpr], [..VisitBinding], [..VisitBindingBlock],
    [..VisitVarDef] and [..VisitWithNewScope], which is not in these files. *)
Definition MVisitType : Ty -> M Ty :=
  or_default (generic self visit_type) ret.

(** Modelled from the spec: the engine's [VisitVarDef] of the mutator. *)
Definition MVisitVarDef : VarRef -> M VarRef :=
  or_default (generic self visit_var_def)
    (fun var =>
       if is_dataflow var
       then or_default (generic self visit_dataflow_var_def_) ret var
       else or_default (generic self visit_var_def_) ret var).

(** Modelled from the spec: a use site gives the replacement when the
    identity is remapped, the variable itself otherwise. *)
Definition visit_var_use (vid : Id) (e : Expr) : M Expr :=
  fun st =>
    match var_remap_ st !! vid with
    | Some var => Ok (var_expr var, st)
    | None => Ok (e, st)
    end.

(** Modelled from the spec: the default post-order transform, the node
    rebuilt from its recursed children. *)
Definition VisitExprPostOrder_ (visit_expr : Expr -> M Expr)
    (visit_binding_block : BindingBlock -> M BindingBlock) (e : Expr) : M Expr :=
  match e with
  | Constant _ _ | ShapeExpr _ _ | RuntimeDepShape _
  | ExternFunc _ _ | GlobalVar _ _ | Op _ _ => ret e
  | Var vid | DataflowVar vid => visit_var_use vid e
  | Tuple fields span =>
      fields' <- mapS visit_expr fields ;;
      ret (Tuple fields' span)
  | Function params body ret_type span =>
      params' <- mapS MVisitVarDef params ;;
      body' <- in_new_scope (visit_expr body) ;;
      ret_type' <- MVisitType ret_type ;;
      ret (Function params' body' ret_type' span)
  | Call op args attrs sinfo_args span =>
      op' <- visit_expr op ;;
      args' <- mapS visit_expr args ;;
      ret (Call op' args' attrs sinfo_args span)
  | SeqExpr blocks body span =>
      blocks' <- mapS visit_binding_block blocks ;;
      body' <- visit_expr body ;;
      ret (SeqExpr blocks' body' span)
  | If cond true_branch false_branch span =>
      cond' <- visit_expr cond ;;
      true_branch' <- in_new_scope (visit_expr true_branch) ;;
      false_branch' <- in_new_scope (visit_expr false_branch) ;;
      ret (If cond' true_branch' false_branch' span)
  | TupleGetItem tuple_value index span =>
      tuple_value' <- visit_expr tuple_value ;;
      ret (TupleGetItem tuple_value' index span)
  end.

(** Modelled from the spec: the per-kind customization around the default
    transform. *)
Definition dispatch (slot : Slot) (post_order : M Expr) (e : Expr) : M Expr :=
  match slot with
  | Override f => f e
  | PostOrder h => e' <- post_order ;; h e'
  | Unset => post_order
  end.

(** Modelled from the spec: the left-hand side of a rewritten binding.  The
    definition is visited, given the shape and type of the rewritten value
    when they differ, and a changed variable is registered in the remap
    table. *)
Definition rebind (var : VarRef) (value' : Expr) : M VarRef :=
  var' <- MVisitVarDef var ;;
  var'' <- (fun st => let '(shape, t) := infer (arena st) value' in
                      with_shape_and_type var' shape t st) ;;
  (if bool_decide (var'' = var) then ret tt else set_var_remap (vid var) var'') ;;;
  ret var''.

(** Modelled from the spec: the default of [visit_var_binding_] and
    [visit_match_shape_]; the rewritten binding is emitted into the block
    under construction. *)
Definition MVisitBinding_ (visit_expr : Expr -> M Expr) (b : Binding) : M unit :=
  match b with
  | VarBinding var value =>
      value' <- visit_expr value ;;
      var' <- rebind var value' ;;
      emit (VarBinding var' value')
  | MatchShape value pattern var =>
      value' <- visit_expr value ;;
      var' <- MVisitVarDef var ;;
      (if bool_decide (var' = var) then ret tt else set_var_remap (vid var) var') ;;;
      emit (MatchShape value' pattern var')
  end.

(** Modelled from the spec: the default of [visit_binding_block_] and
    [visit_dataflow_block_]; a fresh builder scope is opened, the bindings
    are replayed into it, and closing it gives the new block. *)
Definition MVisitBindingBlock_ (visit_binding : Binding -> M unit)
    (block : BindingBlock) : M BindingBlock :=
  match block with
  | PlainBlock bindings =>
      begin_block ;;; iterS visit_binding bindings ;;;
      bindings' <- end_block ;; ret (PlainBlock bindings')
  | DataflowBlock bindings =>
      begin_block ;;; iterS visit_binding bindings ;;;
      bindings' <- end_block ;; ret (DataflowBlock bindings')
  end.

(** Modelled from the spec: the three dispatchers of the engine. *)
Fixpoint MVisitExpr (e : Expr) : M Expr :=
  match generic self visit_expr with
  | Some f => f e
  | None =>
      dispatch (expr_slot self (kind_of e))
               (VisitExprPostOrder_ MVisitExpr MVisitBindingBlock e) e
  end
with MVisitBinding (b : Binding) : M unit :=
  match generic self visit_binding with
  | Some f => f b
  | None =>
      match b with
      | VarBinding _ _ =>
          match generic self visit_var_binding_ with
          | Some f => f b
          | None => MVisitBinding_ MVisitExpr b
          end
      | MatchShape _ _ _ =>
          match generic self visit_match_shape_ with
          | Some f => f b
          | None => MVisitBinding_ MVisitExpr b
          end
      end
  end
with MVisitBindingBlock (block : BindingBlock) : M BindingBlock :=
  match generic self visit_binding_block with
  | Some f => f block
  | None =>
      match block with
      | PlainBlock _ =>
          match generic self visit_binding_block_ with
          | Some f => f block
          | None => MVisitBindingBlock_ MVisitBinding block
          end
      | DataflowBlock _ =>
          match generic self visit_dataflow_block_ with
          | Some f => f block
          | None => MVisitBindingBlock_ MVisitBinding block
          end
      end
  end.

(** Modelled from the spec: [_ffi_api.PyExprMutatorVisitWithNewScope]. *)
Definition visit_with_new_scope (e : Expr) : M Expr :=
  in_new_scope (MVisitExpr e).

(** class PyExprMutator: the body of each method as the source defines it,
    on an instance whose [_outer()] is [self].  The four dispatchers call
    the engine; every other method, the post-order hooks included, is
    [raise NotImplementedError]. *)
Definition PyExprMutator_method (m : MutatorMethod) : marg_ty m -> M (mret_ty m) :=
  match m with
  | Visit visit_expr => MVisitExpr
  | Visit visit_binding => MVisitBinding
  | Visit visit_binding_block => MVisitBindingBlock
  | Visit visit_var_def => MVisitVarDef
  | Visit (visit_ _) => fun _ => raise NotImplementedError
  | Visit visit_var_binding_ => fun _ => raise NotImplementedError
  | Visit visit_match_shape_ => fun _ => raise NotImplementedError
  | Visit visit_binding_block_ => fun _ => raise NotImplementedError
  | Visit visit_dataflow_block_ => fun _ => raise NotImplementedError
  | Visit visit_var_def_ => fun _ => raise NotImplementedError
  | Visit visit_dataflow_var_def_ => fun _ => raise NotImplementedError
  | Visit visit_type => fun _ => raise NotImplementedError
  | Visit visit_span => fun _ => raise NotImplementedError
  | rewrite_post_order _ => fun _ => raise NotImplementedError
  end.

(** Calling method [m] on an instance of the subclass [cls]. *)
Definition mutator_call (cls : MutatorClass) (m : MutatorMethod)
  : marg_ty m -> M (mret_ty m) :=
  match cls m with
  | Some f => f
  | None => PyExprMutator_method m
  end.

(** A tree is well annotated when every variable bound by a [VarBinding]
    is defined and carries the shape and type inferred for the value bound
    to it, as a tree has after inference. *)
Definition annotated (a : gmap Id VarNode) (var : VarRef) (value : Expr) : bool :=
  match a !! vid var with
  | Some node => matches node (fst (infer a value)) (snd (infer a value))
  | None => false
  end.

Fixpoint well_annotated (a : gmap Id VarNode) (e : Expr) : bool :=
  match e with
  | Constant _ _ | ShapeExpr _ _ | RuntimeDepShape _
  | ExternFunc _ _ | GlobalVar _ _ | Op _ _ | Var _ | DataflowVar _ => true
  | Tuple fields _ => forallb (well_annotated a) fields
  | Function _ body _ _ => well_annotated a body
  | Call op args _ _ _ => well_annotated a op && forallb (well_annotated a) args
  | SeqExpr blocks body _ =>
      forallb (well_annotated_block a) blocks && well_annotated a body
  | If cond true_branch false_branch _ =>
      well_annotated a cond && well_annotated a true_branch && well_annotated a false_branch
  | TupleGetItem tuple_value _ _ => well_annotated a tuple_value
  end
with well_annotated_binding (a : gmap Id VarNode) (b : Binding) : bool :=
  match b with
  | VarBinding var value => well_annotated a value && annotated a var value
  | MatchShape value _ _ => well_annotated a value
  end
with well_annotated_block (a : gmap Id VarNode) (block : BindingBlock) : bool :=
  match block with
  | PlainBlock bindings | DataflowBlock bindings =>
      forallb (well_annotated_binding a) bindings
  end.

End mutator_engine.

(** *** Well-formed trees

    Modelled from the spec (data model): a variable is used only where a
    parameter declaration or a binding that dominates the use has
    introduced it; an identity is introduced once; a [DataflowVar] is
    introduced in a dataflow block and used in that block only; a dataflow
    block holds no control flow.  Whether a call is pure is the operators'
    affair and is not judged. *)

(** Modelled from the spec: what is in scope at a point of a tree, the
    [Var]s that may be used,
    the [DataflowVar]s of the dataflow block being read, and every identity
    introduced so far. *)
Record Scope := MkScope {
  visible : gset Id;
  local : gset Id;
  defined : gset Id }.

Definition with_defined (d : gset Id) (s : Scope) : Scope :=
  MkScope (visible s) (local s) d.

(** Modelled from the spec: a definition site. *)
Definition declare (in_dataflow : bool) (var : VarRef) (s : Scope) : option Scope :=
  if bool_decide (vid var ∈ defined s) then None
  else if is_dataflow var
       then if in_dataflow
            then Some (MkScope (visible s) ({[ vid var ]} ∪ local s)
                               ({[ vid var ]} ∪ defined s))
            else None
       else Some (MkScope ({[ vid var ]} ∪ visible s) (local s)
                          ({[ vid var ]} ∪ defined s)).

Fixpoint declare_all (vars : list VarRef) (s : Scope) : option Scope :=
  match vars with
  | [] => Some s
  | var :: vars' =>
      match declare false var s with
      | Some s' => declare_all vars' s'
      | None => None
      end
  end.

(** Modelled from the spec: the check of an expression gives the
    identities introduced once it has been read; the check of a binding or
    a block gives the scope after it. *)
Fixpoint check_expr (in_dataflow : bool) (s : Scope) (e : Expr) {struct e}
  : option (gset Id) :=
  match e with
  | Constant _ _ | ShapeExpr _ _ | RuntimeDepShape _
  | ExternFunc _ _ | GlobalVar _ _ | Op _ _ => Some (defined s)
  | Var v => if bool_decide (v ∈ visible s) then Some (defined s) else None
  | DataflowVar v => if bool_decide (v ∈ local s) then Some (defined s) else None
  | Tuple fields _ =>
      (fix each (es : list Expr) (d : gset Id) : option (gset Id) :=
         match es with
         | [] => Some d
         | e' :: es' =>
             match check_expr in_dataflow (with_defined d s) e' with
             | Some d' => each es' d'
             | None => None
             end
         end) fields (defined s)
  | Function params body _ _ =>
      match declare_all params s with
      | Some s' => check_expr false s' body
      | None => None
      end
  | Call op args _ _ _ =>
      match check_expr in_dataflow s op with
      | Some d0 =>
          (fix each (es : list Expr) (d : gset Id) : option (gset Id) :=
             match es with
             | [] => Some d
             | e' :: es' =>
                 match check_expr in_dataflow (with_defined d s) e' with
                 | Some d' => each es' d'
                 | None => None
                 end
             end) args d0
      | None => None
      end
  | SeqExpr blocks body _ =>
      match (fix each (bs : list BindingBlock) (s0 : Scope) : option Scope :=
               match bs with
               | [] => Some s0
               | b :: bs' =>
                   match check_block s0 b with
                   | Some s1 => each bs' s1
                   | None => None
                   end
               end) blocks s with
      | Some s' => check_expr in_dataflow s' body
      | None => None
      end
  | If cond true_branch false_branch _ =>
      if in_dataflow then None
      else
        match check_expr false s cond with
        | Some d1 =>
            match check_expr false (with_defined d1 s) true_branch with
            | Some d2 => check_expr false (with_defined d2 s) false_branch
            | None => None
            end
        | None => None
        end
  | TupleGetItem tuple_value _ _ => check_expr in_dataflow s tuple_value
  end
with check_binding (in_dataflow : bool) (s : Scope) (b : Binding) {struct b}
  : option Scope :=
  match b with
  | VarBinding var value =>
      match check_expr in_dataflow s value with
      | Some d => declare in_dataflow var (with_defined d s)
      | None => None
      end
  | MatchShape value _ var =>
      match check_expr in_dataflow s value with
      | Some d => declare in_dataflow var (with_defined d s)
      | None => None
      end
  end
with check_block (s : Scope) (block : BindingBlock) {struct block} : option Scope :=
  match block with
  | PlainBlock bindings =>
      (fix each (bs : list Binding) (s0 : Scope) : option Scope :=
         match bs with
         | [] => Some s0
         | b :: bs' =>
             match check_binding false s0 b with
             | Some s1 => each bs' s1
             | None => None
             end
         end) bindings s
  | DataflowBlock bindings =>
      match (fix each (bs : list Binding) (s0 : Scope) : option Scope :=
               match bs with
               | [] => Some s0
               | b :: bs' =>
                   match check_binding true s0 b with
                   | Some s1 => each bs' s1
                   | None => None
                   end
               end) bindings (MkScope (visible s) ∅ (defined s)) with
      | Some s' => Some (MkScope (visible s') (local s) (defined s'))
      | None => None
      end
  end.

(** Modelled from the spec: a tree is well formed under the variables
    [outer] introduced outside it. *)
Definition well_formed (outer : gset Id) (e : Expr) : bool :=
  match check_expr false (MkScope outer ∅ outer) e with
  | Some _ => true
  | None => false
  end.

(** What a traversal that changes nothing keeps: no remap, the variables
    [a] of the program, the blocks under construction. *)
Definition kept (a : gmap Id VarNode) (blocks : list (list Binding))
    (st : MutState) : Prop :=
  var_remap_ st = ∅ /\ arena st = a /\ block_stack st = blocks.

(** A subclass that overrides nothing. *)
Definition no_mutator_overrides : MutatorClass := fun _ => None.

(** The subclass [cls] with [rewrite_K_post_order] (re)defined as [h]. *)
Definition with_hook (cls : MutatorClass) (k : ExprKind) (h : Expr -> M Expr)
  : MutatorClass :=
  fun m =>
    match m with
    | rewrite_post_order k' =>
        if bool_decide (k' = k) then Some h else cls (rewrite_post_order k')
    | Visit m' => cls (Visit m')
    end.

(** *** The constructors of the two TVM objects

    The parameters of [__init__] after [self], and the arguments it hands to
    the [_ffi_api] constructor, in the order the source writes them. *)

(** _PyExprVisitor.__init__: its parameters. *)
Definition _PyExprVisitor_init_params : list string :=
  ["f_visit_expr"; "f_visit_constant_"; "f_visit_tuple_"; "f_visit_var_";
   "f_visit_dataflow_var_"; "f_visit_shape_expr_";
   "f_visit_runtime_dep_shape_"; "f_visit_extern_func_";
   "f_visit_global_var_"; "f_visit_function_"; "f_visit_call_";
   "f_visit_seq_expr_"; "f_visit_if_"; "f_visit_op_";
   "f_visit_tuple_getitem_"; "f_visit_binding"; "f_visit_var_binding_";
   "f_visit_match_shape_"; "f_visit_binding_block"; "f_visit_binding_block_";
   "f_visit_dataflow_block_"; "f_visit_var_def"; "f_visit_var_def_";
   "f_visit_dataflow_var_def_"; "f_visit_type"; "f_visit_span"].

(** _PyExprVisitor.__init__: the arguments of [_ffi_api.MakePyExprVisitor]. *)
Definition MakePyExprVisitor_args : list string :=
  ["f_visit_expr"; "f_visit_constant_"; "f_visit_tuple_"; "f_visit_var_";
   "f_visit_dataflow_var_"; "f_visit_shape_expr_";
   "f_visit_runtime_dep_shape_"; "f_visit_extern_func_";
   "f_visit_global_var_"; "f_visit_function_"; "f_visit_call_";
   "f_visit_seq_expr_"; "f_visit_if_"; "f_visit_op_";
   "f_visit_tuple_getitem_"; "f_visit_binding"; "f_visit_var_binding_";
   "f_visit_match_shape_"; "f_visit_binding_block"; "f_visit_binding_block_";
   "f_visit_dataflow_block_"; "f_visit_var_def"; "f_visit_var_def_";
   "f_visit_dataflow_var_def_"; "f_visit_type"; "f_visit_span"].

(** _PyExprMutator.__init__: its parameters. *)
Definition _PyExprMutator_init_params : list string :=
  ["builder"; "f_visit_expr"; "f_visit_constant_"; "f_visit_tuple_";
   "f_visit_var_"; "f_visit_dataflow_var_"; "f_visit_shape_expr_";
   "f_visit_runtime_dep_shape_"; "f_visit_extern_func_";
   "f_visit_global_var_"; "f_visit_function_"; "f_visit_call_";
   "f_visit_seq_expr_"; "f_visit_if_"; "f_visit_op_";
   "f_visit_tuple_getitem_"; "f_visit_binding"; "f_visit_var_binding_";
   "f_visit_match_shape_"; "f_visit_binding_block"; "f_visit_binding_block_";
   "f_visit_dataflow_block_"; "f_visit_var_def"; "f_visit_var_def_";
   "f_visit_dataflow_var_def_"; "f_visit_type"; "f_visit_span";
   "f_rewrite_constant_post_order"; "f_rewrite_tuple_post_order";
   "f_rewrite_var_post_order"; "f_rewrite_dataflow_var_post_order";
   "f_rewrite_shape_expr_post_order";
   "f_rewrite_runtime_dep_shape_post_order";
   "f_rewrite_extern_func_post_order"; "f_rewrite_global_var_post_order";
   "f_rewrite_function_post_order"; "f_rewrite_call_post_order";
   "f_rewrite_seq_expr_post_order"; "f_rewrite_if_post_order";
   "f_rewrite_op_post_order"; "f_rewrite_tuple_getitem_post_order"].

(** _PyExprMutator.__init__: the arguments of [_ffi_api.MakePyExprMutator]. *)
Definition MakePyExprMutator_args : list string :=
  ["builder"; "f_visit_expr"; "f_visit_constant_"; "f_visit_tuple_";
   "f_visit_var_"; "f_visit_dataflow_var_"; "f_visit_shape_expr_";
   "f_visit_runtime_dep_shape_"; "f_visit_extern_func_";
   "f_visit_global_var_"; "f_visit_function_"; "f_visit_call_";
   "f_visit_seq_expr_"; "f_visit_if_"; "f_visit_op_";
   "f_visit_tuple_getitem_"; "f_visit_binding"; "f_visit_var_binding_";
   "f_visit_match_shape_"; "f_visit_binding_block"; "f_visit_binding_block_";
   "f_visit_dataflow_block_"; "f_visit_var_def"; "f_visit_var_def_";
   "f_visit_dataflow_var_def_"; "f_visit_type"; "f_visit_span";
   "f_rewrite_constant_post_order"; "f_rewrite_tuple_post_order";
   "f_rewrite_var_post_order"; "f_rewrite_dataflow_var_post_order";
   "f_rewrite_shape_expr_post_order";
   "f_rewrite_runtime_dep_shape_post_order";
   "f_rewrite_extern_func_post_order"; "f_rewrite_global_var_post_order";
   "f_rewrite_function_post_order"; "f_rewrite_call_post_order";
   "f_rewrite_seq_expr_post_order"; "f_rewrite_if_post_order";
   "f_rewrite_op_post_order"; "f_rewrite_tuple_getitem_post_order"].

(** PyExprMutator._tvm_metadata["fields"] *)
Definition PyExprMutator_fields : list string := ["builder_"].

(** The four generic dispatchers among the methods of a mutator. *)
Definition is_mutator_dispatcher (m : MutatorMethod) : bool :=
  match m with
  | Visit m' => is_dispatcher m'
  | rewrite_post_order _ => false
  end.

(** *** Sample subclasses *)

(** A visitor that counts [Call] nodes:
    [def visit_call_(self, op): self.count += 1]. *)
Definition CallCounter : VisitorClass (U:=nat) :=
  fun m =>
    match m with
    | visit_ k =>
        match k with
        | KCall => Some (fun (_ : Expr) (count : nat) => Ok (tt, S count))
        | _ => None
        end
    | _ => None
    end.

(** A mutator that replaces every variable by a constant:
    [def visit_var_(self, op): return relax.const(0)]. *)
Definition VarEraser : MutatorClass :=
  fun m =>
    match m with
    | Visit m' =>
        match m' with
        | visit_ k =>
            match k with
            | KVar => Some (fun (_ : Expr) => ret (Constant 0 NoSpan))
            | _ => None
            end
        | _ => None
        end
    | rewrite_post_order _ => None
    end.

(** A mutator that supplies both [visit_tuple_] and
    [rewrite_tuple_post_order]. *)
Definition TupleTwice : MutatorClass :=
  fun m =>
    match m with
    | Visit m' =>
        match m' with
        | visit_ k =>
            match k with
            | KTuple => Some (fun (e : Expr) => ret e)
            | _ => None
            end
        | _ => None
        end
    | rewrite_post_order k =>
        match k with
        | KTuple => Some (fun (e : Expr) => ret e)
        | _ => None
        end
    end.

(** A mutator whose only customization is an identity hook on calls:
    [def rewrite_call_post_order(self, op): return op]. *)
Definition CallIdentity : MutatorClass :=
  with_hook no_mutator_overrides KCall ret.

(** The function [f(x) = { with dataflow: y = add(x, x); output y }; y], its
    two variables carrying no shape and the type [ObjectType]. *)
Definition sample_x : VarRef := MkVarRef false 0%nat.
Definition sample_y : VarRef := MkVarRef false 1%nat.

Definition sample_arena : gmap Id VarNode :=
  {[ 0%nat := MkVarNode "x" None (Some ObjectType) NoSpan;
     1%nat := MkVarNode "y" None (Some ObjectType) NoSpan ]}.

Definition sample_function : Expr :=
  Function [sample_x]
    (SeqExpr
       [DataflowBlock
          [VarBinding sample_y
             (Call (Op "relax.add" NoSpan) [Var 0%nat; Var 0%nat] None [] NoSpan)]]
       (Var 1%nat) NoSpan)
    ObjectType NoSpan.

(** A mutator that turns additions into multiplications after their
    arguments have been rewritten:
    [def rewrite_call_post_order(self, op): ...]. *)
Definition AddToMultiply : MutatorClass :=
  with_hook no_mutator_overrides KCall
    (fun e =>
       match e with
       | Call (Op "relax.add" s) args attrs sinfo_args span =>
           ret (Call (Op "relax.multiply" s) args attrs sinfo_args span)
       | _ => ret e
       end).

(** An inference that knows nothing: no shape, [ObjectType]. *)
Definition infer_nothing (a : gmap Id VarNode) (e : Expr) : option ShapeObj * Ty :=
  (None, ObjectType).

(** A mutator with no override and the identity as every post-order hook:
    [def rewrite_K_post_order(self, op): return op] for each kind. *)
Definition IdentityHooks : MutatorClass :=
  fun m =>
    match m with
    | Visit _ => None
    | rewrite_post_order _ => Some (fun (e : Expr) => ret e)
    end.

(** The function
    [f(x) = { with dataflow: lv = add(x, x); gv = lv; output gv }; gv],
    every variable carrying no shape and the type [ObjectType]. *)
Definition sample_lv : VarRef := MkVarRef true 1%nat.
Definition sample_gv : VarRef := MkVarRef false 2%nat.

Definition sample_program_arena : gmap Id VarNode :=
  {[ 0%nat := MkVarNode "x" None (Some ObjectType) NoSpan;
     1%nat := MkVarNode "lv" None (Some ObjectType) NoSpan;
     2%nat := MkVarNode "gv" None (Some ObjectType) NoSpan ]}.

Definition sample_program : Expr :=
  Function [sample_x]
    (SeqExpr
       [DataflowBlock
          [VarBinding sample_lv
             (Call (Op "relax.add" NoSpan) [Var 0%nat; Var 0%nat] None [] NoSpan);
           VarBinding sample_gv (DataflowVar 1%nat)]]
       (Var 2%nat) NoSpan)
    ObjectType NoSpan.

(** The program [{ y = 5 }; y] in which [y] is annotated with [ObjectType],
    under an inference that gives a constant the type of a scalar [int32]
    tensor. *)
Definition sample_constant_arena : gmap Id VarNode :=
  {[ 1%nat := MkVarNode "y" None (Some ObjectType) NoSpan ]}.

Definition sample_constant_binding : Expr :=
  SeqExpr [PlainBlock [VarBinding (MkVarRef false 1%nat) (Constant 5 NoSpan)]]
          (Var 1%nat) NoSpan.

Definition infer_constants (a : gmap Id VarNode) (e : Expr) : option ShapeObj * Ty :=
  match e with
  | Constant _ _ => (None, DynTensorType 0 "int32")
  | _ => (None, ObjectType)
  end.

End ExprFunctor.

(* ================================================================== *)
(** * Properties *)
(* ================================================================== *)

Module EntryProps.

Import Entry.

(** C10.  [match_cast] raises [ValueError] when [value] is [None] and when
    [struct_info] is [None]; for every other pair of arguments it returns
    a [MatchCastPair] holding exactly the two arguments. *)
Theorem match_cast_spec (value struct_info : PyObj) :
  (value = PyNone ->
     match_cast value struct_info
     = Raise (ValueError "value of match_cast cannot be None")) /\
  (value <> PyNone -> struct_info = PyNone ->
     match_cast value struct_info
     = Raise (ValueError "struct_info of match_cast cannot be None")) /\
  (struct_info = PyNone ->
     exists msg, match_cast value struct_info = Raise (ValueError msg)) /\
  (value <> PyNone -> struct_info <> PyNone ->
     match_cast value struct_info = Ok (MkMatchCastPair value struct_info)).
Proof.
  unfold match_cast. split; [| split; [| split]].
  - intros ->. reflexivity.
  - intros Hv ->. destruct value; try congruence; reflexivity.
  - intros ->. destruct value; simpl; eauto.
  - intros Hv Hs. destruct value; try congruence; destruct struct_info; simpl; congruence.
Qed.

Lemma match_cast_spec_witness :
  match_cast (PyInt 1) (PyStr "s") = Ok (MkMatchCastPair (PyInt 1) (PyStr "s")) /\
  match_cast PyNone (PyStr "s") = Raise (ValueError "value of match_cast cannot be None") /\
  match_cast (PyInt 1) PyNone
  = Raise (ValueError "struct_info of match_cast cannot be None").
Proof.
  split; [| split].
  - apply (match_cast_spec (PyInt 1) (PyStr "s")); discriminate.
  - exact (proj1 (match_cast_spec PyNone (PyStr "s")) eq_refl).
  - refine (proj1 (proj2 (match_cast_spec (PyInt 1) PyNone)) _ eq_refl). discriminate.
Defined.

(** The reading of C9 as it is worded.  The scalar-tensor line measures
    every shape other than [None] and replaces the empty ones by [[]] before
    the other tests: an empty tuple is not stored as given; an empty string
    is not taken as the dtype, and raises nothing when a dtype is given; an
    [int], which is neither [None] nor a list nor a tuple, raises
    [TypeError] and not [ValueError]. *)
Lemma Tensor_empty_tuple_counterexample :
  let py_str := fun _ : PyObj => "3" in
  (is_tuple_or_list (PyTuple []) = true /\
   Tensor py_str (PyTuple []) (Some "float32") (-1)
     = Ok (MkTensorProxy (PyList []) (Some "float32") (-1)) /\
   Tensor py_str (PyTuple []) (Some "float32") (-1)
     <> Ok (MkTensorProxy (PyTuple []) (Some "float32") (-1))) /\
  (Tensor py_str (PyStr "") None (-1) = Ok (MkTensorProxy (PyList []) None (-1)) /\
   Tensor py_str (PyStr "") None (-1) <> Ok (MkTensorProxy PyNone (Some "") (-1)) /\
   Tensor py_str (PyStr "") (Some "float32") (-1)
     = Ok (MkTensorProxy (PyList []) (Some "float32") (-1))) /\
  (is_none (PyInt 3) = false /\ is_tuple_or_list (PyInt 3) = false /\
   Tensor py_str (PyInt 3) None (-1)
     = Raise (TypeError "object of type 'int' has no len()") /\
   Tensor py_str (PyInt 3) None (-1) <> Raise (Tensor_shape_error py_str (PyInt 3))).
Proof.
  intros py_str. split; [| split].
  - split; [reflexivity | split; [reflexivity | discriminate]].
  - split; [reflexivity | split; [discriminate | reflexivity]].
  - split; [reflexivity | split; [reflexivity | split; [reflexivity | discriminate]]].
Qed.

(** C9 (amended).  A shape other than [None] is first measured with [len]:
    a shape without a length raises what [len] raises, and a shape of length
    0 is replaced by the empty list.  After that the claim holds: a string
    with [dtype] [None] becomes the dtype and the proxy's shape is [None];
    a shape that is neither a list nor a tuple (after that reinterpretation)
    raises the [ValueError] that prints the shape; a list or a tuple is
    stored as given, with the given dtype and ndim; and so is [None]. *)
Theorem Tensor_spec (py_str : PyObj -> string) (shape : PyObj)
    (dtype : option string) (ndim : Z) :
  (shape = PyNone ->
     Tensor py_str shape dtype ndim = Ok (MkTensorProxy PyNone dtype ndim)) /\
  (forall e, shape <> PyNone -> len shape = Raise e ->
     Tensor py_str shape dtype ndim = Raise e) /\
  (shape <> PyNone -> len shape = Ok 0%nat ->
     Tensor py_str shape dtype ndim = Ok (MkTensorProxy (PyList []) dtype ndim)) /\
  (forall n, len shape = Ok (S n) ->
     (forall s, shape = PyStr s -> dtype = None ->
        Tensor py_str shape dtype ndim = Ok (MkTensorProxy PyNone (Some s) ndim)) /\
     (is_str shape = false \/ dtype <> None -> is_tuple_or_list shape = false ->
        Tensor py_str shape dtype ndim = Raise (Tensor_shape_error py_str shape)) /\
     (is_tuple_or_list shape = true ->
        Tensor py_str shape dtype ndim = Ok (MkTensorProxy shape dtype ndim))).
Proof.
  split; [| split; [| split]].
  - intros ->. reflexivity.
  - intros e Hn He. unfold Tensor.
    destruct shape as [|s|z|items|items|entries|[v|name]]; try congruence;
      simpl in He; try discriminate He; injection He as <-; reflexivity.
  - intros Hn Hl. unfold Tensor.
    destruct shape as [|s|z|items|items|entries|[v|name]]; try congruence;
      simpl in Hl |- *; try discriminate Hl;
      injection Hl as Hl; rewrite Hl; simpl; destruct dtype; reflexivity.
  - intros n Hl. unfold Tensor.
    destruct shape as [|s|z|items|items|entries|[v|name]];
      simpl in Hl |- *; try discriminate Hl;
      injection Hl as Hl; rewrite Hl; simpl.
    + split; [| split].
      * intros s' [= <-] ->. reflexivity.
      * intros [H | H] _; [discriminate H|].
        destruct dtype; [reflexivity | congruence].
      * discriminate.
    + split; [| split]; [discriminate | discriminate | intros _; destruct dtype; reflexivity].
    + split; [| split]; [discriminate | discriminate | intros _; destruct dtype; reflexivity].
    + split; [| split]; [discriminate | intros _ _; destruct dtype; reflexivity | discriminate].
Qed.

Lemma Tensor_spec_witness :
  let py_str := fun _ : PyObj => "{'n': 2}" in
  Tensor py_str (PyStr "float32") None (-1)
    = Ok (MkTensorProxy PyNone (Some "float32") (-1)) /\
  Tensor py_str (PyStr "n") (Some "float32") 2
    = Raise (ValueError "shape must be a list or tuple, but got: n") /\
  Tensor py_str (PyDict [(PyStr "n", PyInt 2)]) None 2
    = Raise (ValueError "shape must be a list or tuple, but got: {'n': 2}") /\
  Tensor py_str (PyList [PyInt 2; PyStr "n"]) (Some "float32") 2
    = Ok (MkTensorProxy (PyList [PyInt 2; PyStr "n"]) (Some "float32") 2) /\
  Tensor py_str (PyDict []) None 0 = Ok (MkTensorProxy (PyList []) None 0) /\
  Tensor py_str (PyInt 3) None 1
    = Raise (TypeError "object of type 'int' has no len()") /\
  Tensor py_str PyNone None (-1) = Ok (MkTensorProxy PyNone None (-1)).
Proof.
  intros py_str. split; [| split; [| split; [| split; [| split; [| split]]]]].
  - destruct (Tensor_spec py_str (PyStr "float32") None (-1)) as (_ & _ & _ & H).
    destruct (H 6%nat eq_refl) as (Hstr & _ & _).
    exact (Hstr "float32" eq_refl eq_refl).
  - destruct (Tensor_spec py_str (PyStr "n") (Some "float32") 2) as (_ & _ & _ & H).
    destruct (H 0%nat eq_refl) as (_ & Herr & _).
    apply Herr; [right; discriminate | reflexivity].
  - destruct (Tensor_spec py_str (PyDict [(PyStr "n", PyInt 2)]) None 2)
      as (_ & _ & _ & H).
    destruct (H 0%nat eq_refl) as (_ & Herr & _).
    apply Herr; [left; reflexivity | reflexivity].
  - destruct (Tensor_spec py_str (PyList [PyInt 2; PyStr "n"]) (Some "float32") 2)
      as (_ & _ & _ & H).
    destruct (H 1%nat eq_refl) as (_ & _ & Hkeep).
    exact (Hkeep eq_refl).
  - destruct (Tensor_spec py_str (PyDict []) None 0) as (_ & _ & Hempty & _).
    apply Hempty; [discriminate | reflexivity].
  - destruct (Tensor_spec py_str (PyInt 3) None 1) as (_ & Hlen & _).
    apply Hlen; [discriminate | reflexivity].
  - destruct (Tensor_spec py_str PyNone None (-1)) as (Hnone & _).
    exact (Hnone eq_refl).
Defined.

End EntryProps.

Module IRBuilderProps.

Import Entry IRBuilder.

Lemma mapM_Forall2 {A B} (f : A -> result B) (xs : list A) (ys : list B) :
  Forall2 (fun x y => f x = Ok y) xs ys <-> mapM f xs = Ok ys.
Proof.
  revert ys. induction xs as [|x xs IH]; intros ys; simpl.
  - split.
    + intros H. inversion H. reflexivity.
    + intros [= <-]. constructor.
  - split.
    + intros H. inversion H as [|? y ? ys' Hx Hxs]; subst.
      rewrite Hx. simpl. apply IH in Hxs. rewrite Hxs. reflexivity.
    + destruct (f x) as [y|e] eqn:Hx; simpl; [|discriminate].
      destruct (mapM f xs) as [ys'|e] eqn:Hxs; simpl; [|discriminate].
      intros [= <-]. constructor; [assumption|]. apply IH. reflexivity.
Qed.

Section call_packed_props.

Variable py_eval : string -> Globals -> result PyObj.
Variable make_node : PyObj -> Kwargs -> result Attrs.

Local Abbreviation call_packed := (call_packed py_eval make_node).
Local Abbreviation convert_sinfo_arg := (convert_sinfo_arg py_eval).

(** C8.  [call_packed] raises [ValueError] when [sinfo_args] is [None].
    Otherwise [sinfo_args] is normalised to a list (a single element is
    wrapped, a tuple or list gives its elements), every element is
    converted (a callable is called, a proxy turned into its
    [StructInfo]), and the result is the [Call] of [ExternFunc(func)] on
    [args] with the converted list as [sinfo_args]. *)
Theorem call_packed_spec (func : string) (args : list Expr)
    (sinfo_args : SInfoArgs) (kwargs : Kwargs) :
  (sinfo_args = SInfoNone ->
     exists msg, call_packed func args sinfo_args kwargs = Raise (ValueError msg)) /\
  (forall a, normalize_sinfo_args (SInfoSingle a) = [a]) /\
  (forall items, normalize_sinfo_args (SInfoTuple items) = items) /\
  (forall items, normalize_sinfo_args (SInfoList items) = items) /\
  (forall s, convert_sinfo_arg (Plain (StructInfoObj s)) = Ok s) /\
  (forall p, convert_sinfo_arg (Plain (ProxyObj p)) = asobject py_eval p) /\
  (forall p, convert_sinfo_arg (Callable (Ok (ProxyObj p))) = asobject py_eval p) /\
  (forall converted attrs,
     sinfo_args <> SInfoNone ->
     Forall2 (fun a s => convert_sinfo_arg a = Ok s)
             (normalize_sinfo_args sinfo_args) converted ->
     call_packed_attrs make_node kwargs = Ok attrs ->
     call_packed func args sinfo_args kwargs
       = Ok (Call (ExternFunc func NoSpan) args attrs converted NoSpan)).
Proof.
  repeat split; try reflexivity.
  - intros ->. simpl. eauto.
  - intros converted attrs Hne Hconv Hattrs.
    apply mapM_Forall2 in Hconv.
    unfold IRBuilder.call_packed.
    destruct sinfo_args; [congruence | | |];
      rewrite Hconv; simpl; rewrite Hattrs; reflexivity.
Qed.

End call_packed_props.

Lemma call_packed_spec_witness :
  let py_eval := fun _ _ => Raise (InternalError "eval") in
  let make_node := fun _ kw => Ok (MkAttrs "DictAttrs" kw) in
  let py_str := fun _ : PyObj => "None" in
  call_packed py_eval make_node "vm.builtin.copy" [Var 0%nat]
              (SInfoTuple [R_Tensor py_str; Plain (ProxyObj ObjectProxy)]) []
  = Ok (Call (ExternFunc "vm.builtin.copy" NoSpan) [Var 0%nat] None
             [TensorStructInfo None None (-1); ObjectStructInfo] NoSpan)
  /\ exists msg, call_packed py_eval make_node "vm.builtin.copy" [Var 0%nat] SInfoNone []
                 = Raise (ValueError msg).
Proof.
  intros py_eval make_node py_str. split.
  - refine (proj2 (proj2 (proj2 (proj2 (proj2 (proj2 (proj2
             (call_packed_spec py_eval make_node "vm.builtin.copy" [Var 0%nat]
                (SInfoTuple [R_Tensor py_str; Plain (ProxyObj ObjectProxy)]) [])))))))
             _ None _ _ eq_refl).
    + discriminate.
    + repeat constructor.
  - exact (proj1 (call_packed_spec py_eval make_node "vm.builtin.copy" [Var 0%nat]
                    SInfoNone []) eq_refl).
Defined.

End IRBuilderProps.

Module ExprFunctorProps.

Import ExprFunctor.
Local Open Scope st_scope.

(** The method tables spell the names of [_tvm_metadata]. *)
Example PyExprVisitor_method_names :
  map visit_method_name PyExprVisitor_methods =
  ["visit_expr"; "visit_constant_"; "visit_tuple_"; "visit_var_";
   "visit_dataflow_var_"; "visit_shape_expr_"; "visit_runtime_dep_shape_";
   "visit_extern_func_"; "visit_global_var_"; "visit_function_"; "visit_call_";
   "visit_seq_expr_"; "visit_if_"; "visit_op_"; "visit_tuple_getitem_";
   "visit_binding"; "visit_var_binding_"; "visit_match_shape_";
   "visit_binding_block"; "visit_binding_block_"; "visit_dataflow_block_";
   "visit_var_def"; "visit_var_def_"; "visit_dataflow_var_def_";
   "visit_type"; "visit_span"].
Proof. reflexivity. Qed.

Example PyExprMutator_rewrite_names :
  map mutator_method_name (map rewrite_post_order all_kinds) =
  ["rewrite_constant_post_order"; "rewrite_tuple_post_order";
   "rewrite_var_post_order"; "rewrite_dataflow_var_post_order";
   "rewrite_shape_expr_post_order"; "rewrite_runtime_dep_shape_post_order";
   "rewrite_extern_func_post_order"; "rewrite_global_var_post_order";
   "rewrite_function_post_order"; "rewrite_call_post_order";
   "rewrite_seq_expr_post_order"; "rewrite_if_post_order";
   "rewrite_op_post_order"; "rewrite_tuple_getitem_post_order"].
Proof. reflexivity. Qed.

(** The visitor [CallCounter] on [(add(x, x), add(x, 1), 2)]: two calls. *)
Example CallCounter_counts :
  visitor_call CallCounter visit_expr
    (Tuple [Call (Op "relax.add" NoSpan) [Var 0%nat; Var 0%nat] None [] NoSpan;
            Call (Op "relax.add" NoSpan) [Var 0%nat; Constant 1 NoSpan] None [] NoSpan;
            Constant 2 NoSpan] NoSpan) 0%nat
  = Ok (tt, 2%nat).
Proof. reflexivity. Qed.

(** The mutator [AddToMultiply] on the sample function: the value bound to
    [y] becomes [multiply(x, x)], the block, its binding and the use of [y]
    stay as they are. *)
Example AddToMultiply_rewrites :
  exists self st',
    mutator AddToMultiply = Ok self /\
    MVisitExpr infer_nothing self sample_function (new_state sample_arena)
    = Ok (Function [sample_x]
            (SeqExpr
               [DataflowBlock
                  [VarBinding sample_y
                     (Call (Op "relax.multiply" NoSpan) [Var 0%nat; Var 0%nat]
                           None [] NoSpan)]]
               (Var 1%nat) NoSpan)
            ObjectType NoSpan, st').
Proof. eexists _, _. split; [reflexivity|]. vm_compute. reflexivity. Qed.

(** *** Induction over expressions, bindings and blocks *)

Section Expr_mutind.

Variables (P : Expr -> Prop) (Q : Binding -> Prop) (R : BindingBlock -> Prop).

Hypothesis HConstant : forall d s, P (Constant d s).
Hypothesis HTuple : forall fs s, Forall P fs -> P (Tuple fs s).
Hypothesis HVar : forall v, P (Var v).
Hypothesis HDataflowVar : forall v, P (DataflowVar v).
Hypothesis HShapeExpr : forall vs s, P (ShapeExpr vs s).
Hypothesis HRuntimeDepShape : forall s, P (RuntimeDepShape s).
Hypothesis HExternFunc : forall g s, P (ExternFunc g s).
Hypothesis HGlobalVar : forall n s, P (GlobalVar n s).
Hypothesis HFunction : forall ps b t s, P b -> P (Function ps b t s).
Hypothesis HCall : forall op args attrs si s,
  P op -> Forall P args -> P (Call op args attrs si s).
Hypothesis HSeqExpr : forall bs b s, Forall R bs -> P b -> P (SeqExpr bs b s).
Hypothesis HIf : forall c t f s, P c -> P t -> P f -> P (If c t f s).
Hypothesis HOp : forall n s, P (Op n s).
Hypothesis HTupleGetItem : forall t i s, P t -> P (TupleGetItem t i s).
Hypothesis HVarBinding : forall v e, P e -> Q (VarBinding v e).
Hypothesis HMatchShape : forall e p v, P e -> Q (MatchShape e p v).
Hypothesis HPlainBlock : forall bs, Forall Q bs -> R (PlainBlock bs).
Hypothesis HDataflowBlock : forall bs, Forall Q bs -> R (DataflowBlock bs).

Fixpoint Expr_mutind (e : Expr) : P e :=
  match e with
  | Constant d s => HConstant d s
  | Tuple fs s =>
      HTuple fs s
        ((fix all (l : list Expr) : Forall P l :=
            match l with
            | [] => @List.Forall_nil _ P
            | x :: l' => @List.Forall_cons _ P x l' (Expr_mutind x) (all l')
            end) fs)
  | Var v => HVar v
  | DataflowVar v => HDataflowVar v
  | ShapeExpr vs s => HShapeExpr vs s
  | RuntimeDepShape s => HRuntimeDepShape s
  | ExternFunc g s => HExternFunc g s
  | GlobalVar n s => HGlobalVar n s
  | Function ps b t s => HFunction ps b t s (Expr_mutind b)
  | Call op args attrs si s =>
      HCall op args attrs si s (Expr_mutind op)
        ((fix all (l : list Expr) : Forall P l :=
            match l with
            | [] => @List.Forall_nil _ P
            | x :: l' => @List.Forall_cons _ P x l' (Expr_mutind x) (all l')
            end) args)
  | SeqExpr bs b s =>
      HSeqExpr bs b s
        ((fix all (l : list BindingBlock) : Forall R l :=
            match l with
            | [] => @List.Forall_nil _ R
            | x :: l' => @List.Forall_cons _ R x l' (Block_mutind x) (all l')
            end) bs)
        (Expr_mutind b)
  | If c t f s => HIf c t f s (Expr_mutind c) (Expr_mutind t) (Expr_mutind f)
  | Op n s => HOp n s
  | TupleGetItem t i s => HTupleGetItem t i s (Expr_mutind t)
  end
with Binding_mutind (b : Binding) : Q b :=
  match b with
  | VarBinding v e => HVarBinding v e (Expr_mutind e)
  | MatchShape e p v => HMatchShape e p v (Expr_mutind e)
  end
with Block_mutind (bb : BindingBlock) : R bb :=
  match bb with
  | PlainBlock bs =>
      HPlainBlock bs
        ((fix all (l : list Binding) : Forall Q l :=
            match l with
            | [] => @List.Forall_nil _ Q
            | x :: l' => @List.Forall_cons _ Q x l' (Binding_mutind x) (all l')
            end) bs)
  | DataflowBlock bs =>
      HDataflowBlock bs
        ((fix all (l : list Binding) : Forall Q l :=
            match l with
            | [] => @List.Forall_nil _ Q
            | x :: l' => @List.Forall_cons _ Q x l' (Binding_mutind x) (all l')
            end) bs)
  end.

Lemma tree_mutind : (forall e, P e) /\ (forall b, Q b) /\ (forall bb, R bb).
Proof.
  split; [exact Expr_mutind | split; [exact Binding_mutind | exact Block_mutind]].
Qed.

End Expr_mutind.

(** *** Computations that return *)

Lemma returnsS_ret {S A} (a : A) : returnsS (ret (S:=S) a).
Proof. intros s. exists a, s. reflexivity. Qed.

Lemma returnsS_bind {S A B} (m : ST S A) (k : A -> ST S B) :
  returnsS m -> (forall a, returnsS (k a)) -> returnsS (bindS m k).
Proof.
  intros Hm Hk s. destruct (Hm s) as (a & s' & E).
  unfold bindS. rewrite E. apply Hk.
Qed.

Lemma returnsS_iterS {S A} (f : A -> ST S unit) (l : list A) :
  Forall (fun x => returnsS (f x)) l -> returnsS (iterS f l).
Proof.
  induction 1 as [|x l Hx _ IH]; simpl.
  - apply returnsS_ret.
  - apply returnsS_bind; [exact Hx | intros _; exact IH].
Qed.

Lemma returnsS_mapS {S A B} (f : A -> ST S B) (l : list A) :
  Forall (fun x => returnsS (f x)) l -> returnsS (mapS f l).
Proof.
  induction 1 as [|x l Hx _ IH]; simpl.
  - apply returnsS_ret.
  - apply returnsS_bind; [exact Hx | intros y].
    apply returnsS_bind; [exact IH | intros ys; apply returnsS_ret].
Qed.

Lemma Forall_all {A} (P : A -> Prop) (l : list A) : (forall x, P x) -> Forall P l.
Proof. intros H. induction l; constructor; auto. Qed.

Create HintDb returns.

(** Case analysis on the handler slots a goal inspects. *)
Ltac case_slots :=
  repeat match goal with
         | |- context [match ?c with Some _ => _ | None => _ end] => destruct c
         end.

#[local] Hint Resolve returnsS_ret returnsS_bind returnsS_iterS returnsS_mapS
  Forall_all : returns.

(** *** Computations that agree on every state *)

Lemma eqS_refl {S A} (m : ST S A) : eqS m m.
Proof. intros s. reflexivity. Qed.

Lemma eqS_bind {S A B} (m m' : ST S A) (k k' : A -> ST S B) :
  eqS m m' -> (forall a, eqS (k a) (k' a)) -> eqS (bindS m k) (bindS m' k').
Proof.
  intros Hm Hk s. unfold bindS. rewrite Hm.
  destruct (m' s) as [[a s']|]; [apply Hk | reflexivity].
Qed.

Lemma eqS_bind_ret {S A} (m : ST S A) : eqS (bindS m ret) m.
Proof. intros s. unfold bindS. destruct (m s) as [[a s']|]; reflexivity. Qed.

Lemma eqS_trans {S A} (m1 m2 m3 : ST S A) : eqS m1 m2 -> eqS m2 m3 -> eqS m1 m3.
Proof. intros H1 H2 s. rewrite H1. apply H2. Qed.

Lemma eqS_mapS {S A B} (f g : A -> ST S B) (l : list A) :
  Forall (fun x => eqS (f x) (g x)) l -> eqS (mapS f l) (mapS g l).
Proof.
  induction 1 as [|x l Hx _ IH]; simpl.
  - apply eqS_refl.
  - apply eqS_bind; [exact Hx | intros y].
    apply eqS_bind; [exact IH | intros ys; apply eqS_refl].
Qed.

Lemma eqS_iterS {S A} (f g : A -> ST S unit) (l : list A) :
  Forall (fun x => eqS (f x) (g x)) l -> eqS (iterS f l) (iterS g l).
Proof.
  induction 1 as [|x l Hx _ IH]; simpl.
  - apply eqS_refl.
  - apply eqS_bind; [exact Hx | intros _; exact IH].
Qed.

Lemma eqS_in_new_scope {A} (m m' : M A) :
  eqS m m' -> eqS (in_new_scope m) (in_new_scope m').
Proof. intros H s. unfold in_new_scope. rewrite H. reflexivity. Qed.

Create HintDb agree.

#[local] Hint Resolve eqS_refl eqS_bind eqS_mapS eqS_iterS eqS_in_new_scope : agree.

(** *** The visitor *)

Section visitor_props.

Context {U : Type}.

Variable cls : VisitorClass (U:=U).

(** Every handler the class supplies returns normally. *)
Hypothesis handlers_return :
  forall m f, cls m = Some f -> forall x, returnsS (f x).

Lemma slot_returns (m : VisitMethod) (d : arg_ty m -> ST U unit) (x : arg_ty m) :
  returnsS (d x) -> returnsS (or_default (cls m) d x).
Proof.
  intros Hd. unfold or_default.
  destruct (cls m) as [f|] eqn:E; [exact (handlers_return m f E x) | exact Hd].
Qed.

Lemma VisitSpan_returns s : returnsS (VisitSpan (visitor cls) s).
Proof. apply (slot_returns visit_span). apply returnsS_ret. Qed.

Lemma VisitType_returns t : returnsS (VisitType (visitor cls) t).
Proof. apply (slot_returns visit_type). apply returnsS_ret. Qed.

Lemma VisitVarDef_returns v : returnsS (VisitVarDef (visitor cls) v).
Proof.
  apply (slot_returns visit_var_def). destruct (is_dataflow v).
  - apply (slot_returns visit_dataflow_var_def_). apply returnsS_ret.
  - apply (slot_returns visit_var_def_). apply returnsS_ret.
Qed.

#[local] Hint Resolve VisitSpan_returns VisitType_returns VisitVarDef_returns : returns.

Lemma VisitExpr_unfold (e : Expr) :
  VisitExpr (visitor cls) e =
  or_default (cls visit_expr)
    (or_default (cls (visit_ (kind_of e)))
       (VisitExpr_ (visitor cls) (VisitExpr (visitor cls))
                   (VisitBindingBlock (visitor cls)))) e.
Proof.
  destruct e; simpl; unfold or_default; case_slots; reflexivity.
Qed.

Lemma VisitBinding_unfold (b : Binding) :
  VisitBinding (visitor cls) b =
  or_default (cls visit_binding)
    (match b with
     | VarBinding _ _ =>
         or_default (cls visit_var_binding_)
                    (VisitBinding_ (visitor cls) (VisitExpr (visitor cls)))
     | MatchShape _ _ _ =>
         or_default (cls visit_match_shape_)
                    (VisitBinding_ (visitor cls) (VisitExpr (visitor cls)))
     end) b.
Proof.
  destruct b; simpl; unfold or_default; case_slots; reflexivity.
Qed.

Lemma VisitBindingBlock_unfold (block : BindingBlock) :
  VisitBindingBlock (visitor cls) block =
  or_default (cls visit_binding_block)
    (match block with
     | PlainBlock bs =>
         or_default (cls visit_binding_block_)
                    (fun _ => iterS (VisitBinding (visitor cls)) bs)
     | DataflowBlock bs =>
         or_default (cls visit_dataflow_block_)
                    (fun _ => iterS (VisitBinding (visitor cls)) bs)
     end) block.
Proof.
  destruct block; simpl; unfold or_default; case_slots; reflexivity.
Qed.

Lemma Visit_returns :
  (forall e, returnsS (VisitExpr (visitor cls) e)) /\
  (forall b, returnsS (VisitBinding (visitor cls) b)) /\
  (forall block, returnsS (VisitBindingBlock (visitor cls) block)).
Proof.
  apply tree_mutind; intros;
    try (rewrite VisitExpr_unfold; apply (slot_returns visit_expr);
         apply (slot_returns (visit_ _)); simpl; eauto 10 with returns);
    try (rewrite VisitBinding_unfold; apply (slot_returns visit_binding);
         first [apply (slot_returns visit_var_binding_)
               | apply (slot_returns visit_match_shape_)];
         simpl; eauto 10 with returns);
    try (rewrite VisitBindingBlock_unfold; apply (slot_returns visit_binding_block);
         first [apply (slot_returns visit_binding_block_)
               | apply (slot_returns visit_dataflow_block_)];
         eauto 10 with returns).
Qed.

End visitor_props.

Lemma CallCounter_handlers_return :
  forall m f, CallCounter m = Some f -> forall x, returnsS (f x).
Proof.
  intros m f Hf x count.
  destruct m as [|k| | | | | | | | | | |]; try discriminate.
  destruct k; try discriminate.
  injection Hf as <-. eauto.
Qed.

(** C1.  A per-kind handler that the subclass does not override raises
    [NotImplementedError] when it is invoked; the four generic dispatchers
    [visit_expr], [visit_binding], [visit_binding_block] and [visit_var_def],
    left unoverridden, run the default traversal and return whenever the
    handlers the subclass does supply return, in particular when it
    supplies none. *)
Theorem visitor_defaults {U : Type} (cls : VisitorClass (U:=U)) (m : VisitMethod)
    (x : arg_ty m) :
  cls m = None ->
  (is_dispatcher m = false ->
     forall u, visitor_call cls m x u = Raise NotImplementedError) /\
  (is_dispatcher m = true ->
     (forall m' f, cls m' = Some f -> forall y, returnsS (f y)) ->
     returnsS (visitor_call cls m x)) /\
  (is_dispatcher m = true ->
     returnsS (visitor_call (U:=U) no_visitor_overrides m x)).
Proof.
  intros Hm. split; [| split].
  - intros Hd u. unfold visitor_call. rewrite Hm.
    destruct m; try discriminate; reflexivity.
  - intros Hd Hret. unfold visitor_call. rewrite Hm.
    destruct (Visit_returns cls Hret) as (He & Hb & Hbb).
    destruct m; try discriminate; simpl.
    + apply He.
    + apply Hb.
    + apply Hbb.
    + apply VisitVarDef_returns. exact Hret.
  - intros Hd. unfold visitor_call. simpl.
    assert (Hret : forall m' f, no_visitor_overrides (U:=U) m' = Some f ->
                                forall y, returnsS (f y)) by discriminate.
    destruct (Visit_returns no_visitor_overrides Hret) as (He & Hb & Hbb).
    destruct m; try discriminate; simpl.
    + apply He.
    + apply Hb.
    + apply Hbb.
    + apply VisitVarDef_returns. exact Hret.
Qed.

Lemma visitor_defaults_witness :
  (forall count,
     visitor_call CallCounter (visit_ KConstant) (Constant 0 NoSpan) count
     = Raise NotImplementedError) /\
  returnsS (visitor_call CallCounter visit_expr
              (Tuple [Call (Op "add" NoSpan) [Var 0%nat; Var 0%nat] None [] NoSpan;
                      Constant 1 NoSpan] NoSpan)).
Proof.
  split.
  - exact (proj1 (visitor_defaults CallCounter (visit_ KConstant)
                    (Constant 0 NoSpan) eq_refl) eq_refl).
  - exact (proj1 (proj2 (visitor_defaults CallCounter visit_expr
                    (Tuple [Call (Op "add" NoSpan) [Var 0%nat; Var 0%nat] None [] NoSpan;
                            Constant 1 NoSpan] NoSpan) eq_refl))
             eq_refl CallCounter_handlers_return).
Defined.

(** *** Construction of a mutator *)

Lemma all_kinds_complete (k : ExprKind) : In k all_kinds.
Proof. destruct k; simpl; tauto. Qed.

(** C3.  Constructing a mutator from a class that supplies both [visit_K_]
    and [rewrite_K_post_order] for one kind [K] fails with a configuration
    error; a mutator that was constructed has, for every kind, at most one
    of the two, so no traversal runs with both. *)
Theorem mutator_rejects_both (cls : MutatorClass) :
  (forall k f h,
     cls (Visit (visit_ k)) = Some f -> cls (rewrite_post_order k) = Some h ->
     exists msg, mutator cls = Raise (ConfigurationError msg)) /\
  (forall self, mutator cls = Ok self ->
     forall k, cls (Visit (visit_ k)) = None \/ cls (rewrite_post_order k) = None).
Proof.
  unfold mutator, MakePyExprMutator. split.
  - intros k f h Hf Hh.
    assert (E : existsb (both_supplied cls) all_kinds = true).
    { apply existsb_exists. exists k. split; [apply all_kinds_complete|].
      unfold both_supplied. rewrite Hf, Hh. reflexivity. }
    rewrite E. eauto.
  - intros self Hself k.
    destruct (existsb (both_supplied cls) all_kinds) eqn:E; [discriminate|].
    assert (Hk : both_supplied cls k = false).
    { destruct (both_supplied cls k) eqn:Hk; [|reflexivity].
      rewrite <- E. symmetry. apply existsb_exists.
      exists k. split; [apply all_kinds_complete | exact Hk]. }
    unfold both_supplied in Hk.
    destruct (cls (Visit (visit_ k))); [|left; reflexivity].
    destruct (cls (rewrite_post_order k)); [discriminate | right; reflexivity].
Qed.

Lemma mutator_rejects_both_witness :
  (exists msg, mutator TupleTwice = Raise (ConfigurationError msg)) /\
  (VarEraser (Visit (visit_ KVar)) = None \/ VarEraser (rewrite_post_order KVar) = None).
Proof.
  split.
  - exact (proj1 (mutator_rejects_both TupleTwice) KTuple _ _ eq_refl eq_refl).
  - exact (proj2 (mutator_rejects_both VarEraser) _ eq_refl KVar).
Defined.

(** *** The facilities of a mutator *)

Lemma matches_spec (node : VarNode) (shape : option ShapeObj) (t : Ty) :
  matches node shape t = true <-> shape_ node = shape /\ checked_type_ node = Some t.
Proof.
  unfold matches. rewrite andb_true_iff, !bool_decide_eq_true. reflexivity.
Qed.

(** C7.  For a defined variable, [with_shape_and_type] returns the variable
    itself, and changes nothing, when its shape and type are the specified
    ones; exactly when they are not, it returns a variable under a fresh
    identity whose object carries the specified shape and type, and the
    object of the original variable, like every other object, is left as
    it was. *)
Theorem with_shape_and_type_spec (st : MutState) (var : VarRef) (node : VarNode)
    (shape : option ShapeObj) (t : Ty) :
  arena st !! vid var = Some node ->
  exists var' st',
    with_shape_and_type var shape t st = Ok (var', st') /\
    (shape_ node = shape /\ checked_type_ node = Some t ->
       var' = var /\ st' = st) /\
    (~ (shape_ node = shape /\ checked_type_ node = Some t) ->
       (vid var' ∉ dom (arena st)) /\
       var' <> var /\
       is_dataflow var' = is_dataflow var /\
       arena st' !! vid var'
         = Some (MkVarNode (name_hint node) shape (Some t) (var_span node)) /\
       arena st' !! vid var = Some node /\
       (forall i, i <> vid var' -> arena st' !! i = arena st !! i)) /\
    (var' = var <-> shape_ node = shape /\ checked_type_ node = Some t).
Proof.
  intros Hnode. unfold with_shape_and_type. rewrite Hnode.
  pose proof (is_fresh (dom (arena st))) as Hfresh.
  assert (Hne : fresh (dom (arena st)) <> vid var).
  { intros E. apply Hfresh. rewrite E. apply elem_of_dom. eauto. }
  destruct (matches node shape t) eqn:Hm.
  - apply matches_spec in Hm. eexists _, _. split; [reflexivity|].
    repeat split; auto; tauto.
  - assert (Hn : ~ (shape_ node = shape /\ checked_type_ node = Some t)).
    { intros H. apply matches_spec in H. congruence. }
    eexists _, _. split; [reflexivity|]. simpl.
    split; [tauto|]. split; [| split].
    + intros _. repeat split.
      * exact Hfresh.
      * intros E. apply Hne. rewrite <- E. reflexivity.
      * apply lookup_insert_eq.
      * rewrite lookup_insert_ne by exact Hne. exact Hnode.
      * intros i Hi. apply lookup_insert_ne. congruence.
    + intros E. exfalso. apply Hne. rewrite <- E. reflexivity.
    + tauto.
Qed.

Lemma with_shape_and_type_spec_witness :
  let x := MkVarNode "x" None (Some ObjectType) NoSpan in
  let st := new_state {[ 7%nat := x ]} in
  exists var' st',
    with_shape_and_type (MkVarRef false 7%nat) None (DynTensorType 2 "float32") st
      = Ok (var', st') /\
    var' <> MkVarRef false 7%nat /\
    arena st' !! 7%nat = Some x /\
    arena st' !! vid var' = Some (MkVarNode "x" None (Some (DynTensorType 2 "float32")) NoSpan).
Proof.
  intros x st.
  destruct (with_shape_and_type_spec st (MkVarRef false 7%nat) x None
              (DynTensorType 2 "float32") eq_refl)
    as (var' & st' & Hrun & _ & Hnew & _).
  exists var', st'. split; [exact Hrun|].
  destruct Hnew as (_ & Hne & _ & Hobj & Horig & _).
  - intros [_ H]. discriminate H.
  - auto.
Defined.

Lemma emit_binding_table (b : Binding) (st st' : MutState) :
  emit b st = Ok (tt, st') ->
  binding_table st' = <[vid (binding_var b) := binding_value b]> (binding_table st).
Proof.
  unfold emit. destruct (block_stack st); [discriminate|].
  intros [= <-]. reflexivity.
Qed.

Lemma emit_others_absent (p : VarRef) (bs : list Binding) (st st' : MutState) :
  binding_table st !! vid p = None ->
  Forall (fun b => vid (binding_var b) <> vid p) bs ->
  iterS emit bs st = Ok (tt, st') ->
  binding_table st' !! vid p = None.
Proof.
  intros Hp Hbs. revert st Hp. induction Hbs as [|b bs Hb _ IH]; intros st Hp Hrun.
  - injection Hrun as <-. exact Hp.
  - simpl in Hrun. unfold bindS in Hrun at 1.
    destruct (emit b st) as [[[] st1]|] eqn:E; [|discriminate].
    apply (IH st1); [|exact Hrun].
    rewrite (emit_binding_table b st st1 E), lookup_insert_ne by exact Hb.
    exact Hp.
Qed.



(** *** The traversal of a mutator *)

Section mutator_props.

Variable infer : gmap Id VarNode -> Expr -> option ShapeObj * Ty.
Variable self : Mutator.

Lemma MVisitExpr_unfold (e : Expr) :
  MVisitExpr infer self e =
  match generic self visit_expr with
  | Some f => f e
  | None =>
      dispatch (expr_slot self (kind_of e))
        (VisitExprPostOrder_ self (MVisitExpr infer self)
                             (MVisitBindingBlock infer self) e) e
  end.
Proof. destruct e; reflexivity. Qed.

Lemma MVisitBinding_unfold (b : Binding) :
  MVisitBinding infer self b =
  match generic self visit_binding with
  | Some f => f b
  | None =>
      match (match b with
             | VarBinding _ _ => generic self visit_var_binding_
             | MatchShape _ _ _ => generic self visit_match_shape_
             end) with
      | Some f => f b
      | None => MVisitBinding_ infer self (MVisitExpr infer self) b
      end
  end.
Proof. destruct b; reflexivity. Qed.

Lemma MVisitBindingBlock_unfold (block : BindingBlock) :
  MVisitBindingBlock infer self block =
  match generic self visit_binding_block with
  | Some f => f block
  | None =>
      match (match block with
             | PlainBlock _ => generic self visit_binding_block_
             | DataflowBlock _ => generic self visit_dataflow_block_
             end) with
      | Some f => f block
      | None => MVisitBindingBlock_ (MVisitBinding infer self) block
      end
  end.
Proof. destruct block; reflexivity. Qed.

(** A use site handled by the engine. *)
Lemma MVisitExpr_var_use (e : Expr) (id : Id) (st : MutState) :
  e = Var id \/ e = DataflowVar id ->
  generic self visit_expr = None ->
  expr_slot self (kind_of e) = Unset ->
  MVisitExpr infer self e st = visit_var_use id e st.
Proof.
  intros He Hg Hs. rewrite MVisitExpr_unfold, Hg, Hs.
  destruct He as [-> | ->]; reflexivity.
Qed.

End mutator_props.



(** *** An unset post-order hook *)

Lemma dispatch_agree (s s' : Slot) (p p' : M Expr) (e : Expr) :
  same_or_identity_hook s s' -> eqS p p' -> eqS (dispatch s p e) (dispatch s' p' e).
Proof.
  intros [-> | [-> ->]] Hp.
  - destruct s; simpl; auto with agree.
  - simpl. apply eqS_trans with p'; [exact Hp|].
    intros st. symmetry. apply eqS_bind_ret.
Qed.

Section identity_hook.

Variable infer : gmap Id VarNode -> Expr -> option ShapeObj * Ty.
Variable self : Mutator.
Variable slots' : ExprKind -> Slot.

Hypothesis slots_agree :
  forall k, same_or_identity_hook (expr_slot self k) (slots' k).

Let self' : Mutator := MkMutator slots' (generic self).

Lemma identity_hook_agree :
  (forall e, eqS (MVisitExpr infer self e) (MVisitExpr infer self' e)) /\
  (forall b, eqS (MVisitBinding infer self b) (MVisitBinding infer self' b)) /\
  (forall block, eqS (MVisitBindingBlock infer self block)
                     (MVisitBindingBlock infer self' block)).
Proof.
  apply tree_mutind; intros;
    try (rewrite !MVisitExpr_unfold; simpl generic;
         destruct (generic self visit_expr); [apply eqS_refl|];
         apply dispatch_agree; [apply slots_agree|]; simpl;
         eauto 10 with agree);
    try (rewrite !MVisitBinding_unfold; simpl generic;
         destruct (generic self visit_binding); [apply eqS_refl|];
         cbv iota beta;
         match goal with
         | |- context [match ?c with Some _ => _ | None => _ end] => destruct c
         end;
         [apply eqS_refl|]; simpl; eauto 10 with agree);
    try (rewrite !MVisitBindingBlock_unfold; simpl generic;
         destruct (generic self visit_binding_block); [apply eqS_refl|];
         cbv iota beta;
         match goal with
         | |- context [match ?c with Some _ => _ | None => _ end] => destruct c
         end;
         [apply eqS_refl|]; simpl; eauto 10 with agree).
Qed.

End identity_hook.

Lemma with_hook_both_supplied (cls : MutatorClass) (k k' : ExprKind)
    (h : Expr -> M Expr) :
  cls (Visit (visit_ k)) = None ->
  both_supplied (with_hook cls k h) k' = true -> both_supplied cls k' = true.
Proof.
  intros Hk. unfold both_supplied, with_hook.
  destruct (bool_decide (k' = k)) eqn:E; [|auto].
  apply bool_decide_eq_true in E. subst k'. rewrite Hk. discriminate.
Qed.

Lemma with_hook_slots (cls : MutatorClass) (k : ExprKind) :
  cls (Visit (visit_ k)) = None ->
  cls (rewrite_post_order k) = None ->
  forall k', same_or_identity_hook (slot_of cls k') (slot_of (with_hook cls k ret) k').
Proof.
  intros Hv Hr k'. unfold same_or_identity_hook, slot_of, with_hook.
  destruct (bool_decide (k' = k)) eqn:E; [|left; reflexivity].
  apply bool_decide_eq_true in E. subst k'. rewrite Hv, Hr. right. split; reflexivity.
Qed.

(** The reading of C2 as it is worded: the hook [rewrite_call_post_order],
    not supplied, would never raise.  Invoked on a mutator that supplies
    nothing, it raises [NotImplementedError], as [visit_call_] does. *)
Lemma rewrite_post_order_unsupplied_counterexample :
  exists self,
    mutator no_mutator_overrides = Ok self /\
    no_mutator_overrides (rewrite_post_order KCall) = None /\
    mutator_call infer_nothing self no_mutator_overrides (rewrite_post_order KCall)
      (Call (Op "add" NoSpan) [] None [] NoSpan) (new_state ∅)
    = Raise NotImplementedError /\
    mutator_call infer_nothing self no_mutator_overrides (Visit (visit_ KCall))
      (Call (Op "add" NoSpan) [] None [] NoSpan) (new_state ∅)
    = Raise NotImplementedError.
Proof. eexists. repeat split. Qed.

(** C2 (amended).  For a kind [K] that the subclass customizes in neither
    way, the traversal is the one of the same subclass with
    [rewrite_K_post_order] defined as the identity: the engine returns the
    node rebuilt from the recursed children.  The methods
    [rewrite_K_post_order] and [visit_K_] themselves, not supplied and
    invoked, both raise [NotImplementedError]. *)
Theorem post_order_hook_default
    (infer : gmap Id VarNode -> Expr -> option ShapeObj * Ty)
    (cls : MutatorClass) (k : ExprKind) (self : Mutator) :
  cls (Visit (visit_ k)) = None ->
  cls (rewrite_post_order k) = None ->
  mutator cls = Ok self ->
  (exists self',
     mutator (with_hook cls k ret) = Ok self' /\
     (forall e st, MVisitExpr infer self e st = MVisitExpr infer self' e st) /\
     (forall b st, MVisitBinding infer self b st = MVisitBinding infer self' b st) /\
     (forall block st, MVisitBindingBlock infer self block st
                       = MVisitBindingBlock infer self' block st)) /\
  (cls (Visit visit_expr) = None ->
   forall e st, kind_of e = k ->
     MVisitExpr infer self e st
     = VisitExprPostOrder_ self (MVisitExpr infer self)
                           (MVisitBindingBlock infer self) e st) /\
  (forall e st,
     mutator_call infer self cls (rewrite_post_order k) e st = Raise NotImplementedError) /\
  (forall e st,
     mutator_call infer self cls (Visit (visit_ k)) e st = Raise NotImplementedError).
Proof.
  intros Hv Hr Hself. unfold mutator, MakePyExprMutator in Hself.
  destruct (existsb (both_supplied cls) all_kinds) eqn:Hboth; [discriminate|].
  injection Hself as <-.
  split; [| split; [| split]].
  - exists (MkMutator (slot_of (with_hook cls k ret)) (fun m => cls (Visit m))).
    split.
    + unfold mutator, MakePyExprMutator.
      destruct (existsb (both_supplied (with_hook cls k ret)) all_kinds) eqn:E;
        [|reflexivity].
      apply existsb_exists in E. destruct E as (k' & Hin & Hk').
      apply with_hook_both_supplied in Hk'; [|exact Hv].
      assert (existsb (both_supplied cls) all_kinds = true)
        by (apply existsb_exists; eauto).
      congruence.
    + exact (identity_hook_agree infer
               (MkMutator (slot_of cls) (fun m => cls (Visit m)))
               (slot_of (with_hook cls k ret)) (with_hook_slots cls k Hv Hr)).
  - intros Hg e st <-. rewrite MVisitExpr_unfold. cbn [generic expr_slot].
    rewrite Hg. unfold slot_of. rewrite Hv, Hr. reflexivity.
  - intros e st. unfold mutator_call. rewrite Hr. reflexivity.
  - intros e st. unfold mutator_call. rewrite Hv. reflexivity.
Qed.

Lemma post_order_hook_default_witness :
  exists self',
    mutator (with_hook VarEraser KCall ret) = Ok self' /\
    forall e st,
      MVisitExpr infer_nothing
        (MkMutator (slot_of VarEraser) (fun m => VarEraser (Visit m))) e st
      = MVisitExpr infer_nothing self' e st.
Proof.
  destruct (post_order_hook_default infer_nothing VarEraser KCall
              (MkMutator (slot_of VarEraser) (fun m => VarEraser (Visit m)))
              eq_refl eq_refl eq_refl) as ((self' & Hmake & Hexpr & _) & _).
  exists self'. split; [exact Hmake | exact Hexpr].
Defined.


(** *** The identity mutation *)

Lemma bindS_ok {S A B} (m : ST S A) (k : A -> ST S B) (s s1 : S) (x : A) :
  m s = Ok (x, s1) -> bindS m k s = k x s1.
Proof. intros H. unfold bindS. rewrite H. reflexivity. Qed.

(** A traversal of a list that gives back each element gives back the list. *)
Lemma mapS_fixed {S A} (J : S -> Prop) (W : A -> bool) (f : A -> ST S A) (l : list A) :
  Forall (fun x => W x = true ->
                   forall s, J s -> exists s', f x s = Ok (x, s') /\ J s') l ->
  forallb W l = true ->
  forall s, J s -> exists s', mapS f l s = Ok (l, s') /\ J s'.
Proof.
  induction 1 as [|x l Hx _ IH]; simpl; intros Hw s Hs.
  - exists s. split; [reflexivity | exact Hs].
  - apply andb_true_iff in Hw. destruct Hw as [Hwx Hwl].
    destruct (Hx Hwx s Hs) as (s1 & E1 & Hs1).
    destruct (IH Hwl s1 Hs1) as (s2 & E2 & Hs2).
    exists s2. split; [|exact Hs2].
    rewrite (bindS_ok _ _ _ _ _ E1), (bindS_ok _ _ _ _ _ E2). reflexivity.
Qed.

Section identity_mutation.

Variable infer : gmap Id VarNode -> Expr -> option ShapeObj * Ty.
Variable self : Mutator.

(** No direct override ... *)
Hypothesis no_override : forall k f, expr_slot self k <> Override f.
Hypothesis no_generic : forall m, generic self m = None.

(** ... and only identity post-order hooks. *)
Hypothesis identity_hooks :
  forall k h, expr_slot self k = PostOrder h -> forall e st, h e st = Ok (e, st).

(** The variables of the program. *)
Variable a : gmap Id VarNode.

Local Abbreviation kept := (kept a).

Lemma dispatch_fixed (k : ExprKind) (p : M Expr) (e : Expr) (st st' : MutState) :
  p st = Ok (e, st') -> dispatch (expr_slot self k) p e st = Ok (e, st').
Proof.
  intros Hp. destruct (expr_slot self k) as [|f|h] eqn:E; simpl.
  - exact Hp.
  - exfalso. exact (no_override k f E).
  - rewrite (bindS_ok _ _ _ _ _ Hp). apply (identity_hooks k h E).
Qed.

Lemma MVisitVarDef_fixed (v : VarRef) (st : MutState) :
  MVisitVarDef self v st = Ok (v, st).
Proof.
  unfold MVisitVarDef. rewrite !no_generic. simpl.
  destruct (is_dataflow v); reflexivity.
Qed.

Lemma params_fixed (params : list VarRef) (st : MutState) :
  mapS (MVisitVarDef self) params st = Ok (params, st).
Proof.
  revert st. induction params as [|p ps IH]; intros st; [reflexivity|].
  simpl. rewrite (bindS_ok _ _ _ _ _ (MVisitVarDef_fixed p st)).
  rewrite (bindS_ok _ _ _ _ _ (IH st)). reflexivity.
Qed.

Lemma MVisitType_fixed (t : Ty) (st : MutState) : MVisitType self t st = Ok (t, st).
Proof. unfold MVisitType. rewrite no_generic. reflexivity. Qed.

Lemma in_new_scope_fixed {A} (m : M A) (x : A) (blocks : list (list Binding))
    (st st1 : MutState) :
  kept blocks st -> m st = Ok (x, st1) -> kept blocks st1 ->
  exists st', in_new_scope m st = Ok (x, st') /\ kept blocks st'.
Proof.
  intros (Hr & Ha & Hb) Hm (Hr1 & Ha1 & Hb1).
  exists (with_var_remap (var_remap_ st) st1). split.
  - unfold in_new_scope. rewrite Hm. reflexivity.
  - repeat split; assumption.
Qed.

Lemma rebind_fixed (var : VarRef) (value : Expr) (blocks : list (list Binding))
    (st : MutState) :
  kept blocks st -> annotated infer a var value = true ->
  rebind infer self var value st = Ok (var, st).
Proof.
  intros (Hr & Ha & Hb) Hann. unfold rebind.
  rewrite (bindS_ok _ _ _ _ _ (MVisitVarDef_fixed var st)).
  unfold annotated in Hann.
  destruct (a !! vid var) as [node|] eqn:Hnode; [|discriminate].
  assert (E : (let '(shape, t) := infer (arena st) value in
               with_shape_and_type var shape t st) = Ok (var, st)).
  { rewrite Ha. destruct (infer a value) as [shape t]. simpl in Hann.
    unfold with_shape_and_type. rewrite Ha, Hnode, Hann. reflexivity. }
  rewrite (bindS_ok _ _ _ _ _ E).
  rewrite bool_decide_eq_true_2 by reflexivity. reflexivity.
Qed.

Lemma emit_kept (b : Binding) (frame : list Binding) (outer : list (list Binding))
    (st : MutState) :
  kept (frame :: outer) st ->
  exists st', emit b st = Ok (tt, st') /\ kept ((frame ++ [b])%list :: outer) st'.
Proof.
  intros (Hr & Ha & Hb). unfold emit. rewrite Hb.
  eexists. split; [reflexivity|]. repeat split; assumption.
Qed.

(** Replaying bindings that are emitted as they are appends them to the
    block under construction. *)
Lemma bindings_replayed (f : Binding -> M unit) (W : Binding -> bool)
    (outer : list (list Binding)) (bindings : list Binding) :
  Forall (fun b => W b = true ->
                   forall st frame, kept (frame :: outer) st ->
                   exists st', f b st = Ok (tt, st') /\
                               kept ((frame ++ [b])%list :: outer) st') bindings ->
  forallb W bindings = true ->
  forall st frame, kept (frame :: outer) st ->
  exists st', iterS f bindings st = Ok (tt, st') /\
              kept ((frame ++ bindings)%list :: outer) st'.
Proof.
  induction 1 as [|b bs Hb _ IH]; simpl; intros Hw st frame Hst.
  - exists st. rewrite app_nil_r. split; [reflexivity | exact Hst].
  - apply andb_true_iff in Hw. destruct Hw as [Hwb Hwbs].
    destruct (Hb Hwb st frame Hst) as (st1 & E1 & Hst1).
    destruct (IH Hwbs st1 _ Hst1) as (st2 & E2 & Hst2).
    exists st2. rewrite (bindS_ok _ _ _ _ _ E1).
    split; [exact E2|]. rewrite <- app_assoc in Hst2. exact Hst2.
Qed.

Lemma block_fixed (bindings : list Binding) (blocks : list (list Binding))
    (st : MutState) (rebuild : list Binding -> BindingBlock) :
  Forall (fun b => well_annotated_binding infer a b = true ->
                   forall st frame outer, kept (frame :: outer) st ->
                   exists st', MVisitBinding infer self b st = Ok (tt, st') /\
                               kept ((frame ++ [b])%list :: outer) st') bindings ->
  forallb (well_annotated_binding infer a) bindings = true ->
  kept blocks st ->
  exists st',
    (begin_block ;;; iterS (MVisitBinding infer self) bindings ;;;
     bindings' <- end_block ;; ret (rebuild bindings')) st
    = Ok (rebuild bindings, st') /\ kept blocks st'.
Proof.
  intros Hall Hwf (Hr & Ha & Hb).
  assert (Hin : kept ([] :: blocks) (with_block_stack ([] :: block_stack st) st)).
  { repeat split; simpl; congruence. }
  destruct (bindings_replayed (MVisitBinding infer self) (well_annotated_binding infer a)
              blocks bindings) with (st := with_block_stack ([] :: block_stack st) st)
                                    (frame := @nil Binding)
    as (st1 & E1 & (Hr1 & Ha1 & Hb1)); [| exact Hwf | exact Hin |].
  { eapply Forall_impl; [exact Hall|]. intros b Hbind Hw s frame Hs.
    exact (Hbind Hw s frame blocks Hs). }
  exists (with_block_stack blocks st1). split.
  - rewrite (bindS_ok begin_block _ st _ tt eq_refl).
    rewrite (bindS_ok _ _ _ _ _ E1).
    unfold bindS, end_block. rewrite Hb1. reflexivity.
  - repeat split; assumption.
Qed.

Lemma identity_mutation_fixed :
  (forall e, well_annotated infer a e = true ->
     forall blocks st, kept blocks st ->
     exists st', MVisitExpr infer self e st = Ok (e, st') /\ kept blocks st') /\
  (forall b, well_annotated_binding infer a b = true ->
     forall st frame outer, kept (frame :: outer) st ->
     exists st', MVisitBinding infer self b st = Ok (tt, st') /\
                 kept ((frame ++ [b])%list :: outer) st') /\
  (forall block, well_annotated_block infer a block = true ->
     forall blocks st, kept blocks st ->
     exists st', MVisitBindingBlock infer self block st = Ok (block, st') /\
                 kept blocks st').
Proof.
  apply tree_mutind.
  all: try (intros; rewrite MVisitExpr_unfold, no_generic;
            eexists; split; [apply dispatch_fixed; reflexivity | assumption]).
  - (* Tuple *)
    intros fs s IH Hwf blocks st Hst. simpl in Hwf.
    destruct (mapS_fixed (kept blocks) _ _ fs
                (Forall_impl _ _ _ IH (fun x Hx Hw => Hx Hw blocks)) Hwf st Hst)
      as (st1 & E1 & Hst1).
    exists st1. split; [|exact Hst1].
    rewrite MVisitExpr_unfold, no_generic. apply dispatch_fixed. simpl.
    rewrite (bindS_ok _ _ _ _ _ E1). reflexivity.
  - (* Var *)
    intros v _ blocks st Hst. exists st. split; [|exact Hst].
    rewrite MVisitExpr_unfold, no_generic. apply dispatch_fixed. simpl.
    unfold visit_var_use. destruct Hst as (-> & _). rewrite lookup_empty. reflexivity.
  - (* DataflowVar *)
    intros v _ blocks st Hst. exists st. split; [|exact Hst].
    rewrite MVisitExpr_unfold, no_generic. apply dispatch_fixed. simpl.
    unfold visit_var_use. destruct Hst as (-> & _). rewrite lookup_empty. reflexivity.
  - (* Function *)
    intros ps b t s IH Hwf blocks st Hst. simpl in Hwf.
    destruct (IH Hwf blocks st Hst) as (st1 & E1 & Hst1).
    destruct (in_new_scope_fixed _ _ _ _ _ Hst E1 Hst1) as (st2 & E2 & Hst2).
    exists st2. split; [|exact Hst2].
    rewrite MVisitExpr_unfold, no_generic. apply dispatch_fixed. simpl.
    rewrite (bindS_ok _ _ _ _ _ (params_fixed ps st)).
    rewrite (bindS_ok _ _ _ _ _ E2).
    rewrite (bindS_ok _ _ _ _ _ (MVisitType_fixed t st2)). reflexivity.
  - (* Call *)
    intros op args attrs si s IHop IHargs Hwf blocks st Hst. simpl in Hwf.
    apply andb_true_iff in Hwf. destruct Hwf as [Hwop Hwargs].
    destruct (IHop Hwop blocks st Hst) as (st1 & E1 & Hst1).
    destruct (mapS_fixed (kept blocks) _ _ args
                (Forall_impl _ _ _ IHargs (fun x Hx Hw => Hx Hw blocks)) Hwargs st1 Hst1)
      as (st2 & E2 & Hst2).
    exists st2. split; [|exact Hst2].
    rewrite MVisitExpr_unfold, no_generic. apply dispatch_fixed. simpl.
    rewrite (bindS_ok _ _ _ _ _ E1), (bindS_ok _ _ _ _ _ E2). reflexivity.
  - (* SeqExpr *)
    intros bs b s IHbs IHb Hwf blocks st Hst. simpl in Hwf.
    apply andb_true_iff in Hwf. destruct Hwf as [Hwbs Hwb].
    destruct (mapS_fixed (kept blocks) _ _ bs
                (Forall_impl _ _ _ IHbs (fun x Hx Hw => Hx Hw blocks)) Hwbs st Hst)
      as (st1 & E1 & Hst1).
    destruct (IHb Hwb blocks st1 Hst1) as (st2 & E2 & Hst2).
    exists st2. split; [|exact Hst2].
    rewrite MVisitExpr_unfold, no_generic. apply dispatch_fixed. simpl.
    rewrite (bindS_ok _ _ _ _ _ E1), (bindS_ok _ _ _ _ _ E2). reflexivity.
  - (* If *)
    intros c t f s IHc IHt IHf Hwf blocks st Hst. simpl in Hwf.
    apply andb_true_iff in Hwf. destruct Hwf as [Hwf Hwf3].
    apply andb_true_iff in Hwf. destruct Hwf as [Hwf1 Hwf2].
    destruct (IHc Hwf1 blocks st Hst) as (st1 & E1 & Hst1).
    destruct (IHt Hwf2 blocks st1 Hst1) as (st2 & E2 & Hst2).
    destruct (in_new_scope_fixed _ _ _ _ _ Hst1 E2 Hst2) as (st2' & E2' & Hst2').
    destruct (IHf Hwf3 blocks st2' Hst2') as (st3 & E3 & Hst3).
    destruct (in_new_scope_fixed _ _ _ _ _ Hst2' E3 Hst3) as (st3' & E3' & Hst3').
    exists st3'. split; [|exact Hst3'].
    rewrite MVisitExpr_unfold, no_generic. apply dispatch_fixed. simpl.
    rewrite (bindS_ok _ _ _ _ _ E1), (bindS_ok _ _ _ _ _ E2'),
      (bindS_ok _ _ _ _ _ E3'). reflexivity.
  - (* TupleGetItem *)
    intros t i s IH Hwf blocks st Hst. simpl in Hwf.
    destruct (IH Hwf blocks st Hst) as (st1 & E1 & Hst1).
    exists st1. split; [|exact Hst1].
    rewrite MVisitExpr_unfold, no_generic. apply dispatch_fixed. simpl.
    rewrite (bindS_ok _ _ _ _ _ E1). reflexivity.
  - (* VarBinding *)
    intros v e IH Hwf st frame outer Hst. simpl in Hwf.
    apply andb_true_iff in Hwf. destruct Hwf as [Hwe Hann].
    destruct (IH Hwe _ st Hst) as (st1 & E1 & Hst1).
    destruct (emit_kept (VarBinding v e) frame outer st1 Hst1) as (st2 & E2 & Hst2).
    exists st2. split; [|exact Hst2].
    rewrite MVisitBinding_unfold, !no_generic. simpl.
    rewrite (bindS_ok _ _ _ _ _ E1).
    rewrite (bindS_ok _ _ _ _ _ (rebind_fixed v e _ st1 Hst1 Hann)). exact E2.
  - (* MatchShape *)
    intros e p v IH Hwf st frame outer Hst. simpl in Hwf.
    destruct (IH Hwf _ st Hst) as (st1 & E1 & Hst1).
    destruct (emit_kept (MatchShape e p v) frame outer st1 Hst1) as (st2 & E2 & Hst2).
    exists st2. split; [|exact Hst2].
    rewrite MVisitBinding_unfold, !no_generic. simpl.
    rewrite (bindS_ok _ _ _ _ _ E1).
    rewrite (bindS_ok _ _ _ _ _ (MVisitVarDef_fixed v st1)).
    rewrite bool_decide_eq_true_2 by reflexivity.
    rewrite (bindS_ok (ret tt) _ st1 st1 tt eq_refl). exact E2.
  - (* PlainBlock *)
    intros bs IH Hwf blocks st Hst. simpl in Hwf.
    rewrite MVisitBindingBlock_unfold, !no_generic.
    exact (block_fixed bs blocks st PlainBlock IH Hwf Hst).
  - (* DataflowBlock *)
    intros bs IH Hwf blocks st Hst. simpl in Hwf.
    rewrite MVisitBindingBlock_unfold, !no_generic.
    exact (block_fixed bs blocks st DataflowBlock IH Hwf Hst).
Qed.

End identity_mutation.




End ExprFunctorProps.

(* ================================================================== *)
(** * Further properties of entry.py *)
(* ================================================================== *)

Module EntryFacts.

Import Entry.

(** *** Lists of results *)

Lemma mapM_ext {A B} (f g : A -> result B) (xs : list A) :
  Forall (fun x => f x = g x) xs -> mapM f xs = mapM g xs.
Proof.
  induction 1 as [|x xs Hx _ IH]; simpl; [reflexivity|].
  rewrite Hx, IH. reflexivity.
Qed.

Lemma mapM_fixed_points {A} (f : A -> result A) (xs : list A) :
  Forall (fun x => f x = Ok x) xs -> mapM f xs = Ok xs.
Proof.
  induction 1 as [|x xs Hx _ IH]; simpl; [reflexivity|].
  rewrite Hx, IH. reflexivity.
Qed.

Lemma mapM_length {A B} (f : A -> result B) (xs : list A) (ys : list B) :
  mapM f xs = Ok ys -> length ys = length xs.
Proof.
  intros H. apply IRBuilderProps.mapM_Forall2 in H.
  symmetry. exact (Forall2_length _ _ _ H).
Qed.

(** The first element that raises decides what the whole list does. *)
Lemma mapM_first_raise {A B} (f : A -> result B) (pre post : list A) (x : A) (e : exn) :
  Forall (fun y => exists b, f y = Ok b) pre -> f x = Raise e ->
  mapM f (pre ++ x :: post) = Raise e.
Proof.
  intros Hpre Hx. induction Hpre as [|y pre [b Hy] _ IH]; simpl.
  - rewrite Hx. reflexivity.
  - rewrite Hy. simpl. rewrite IH. reflexivity.
Qed.

(** *** Dimensions *)

Lemma to_prim_expr_not_str (o : PyObj) (d : PrimExpr) :
  to_prim_expr o = Ok d -> is_str o = false.
Proof. destruct o; simpl; intros H; try discriminate; reflexivity. Qed.

Lemma dims_no_str (items : list PyObj) (dims : list PrimExpr) :
  mapM to_prim_expr items = Ok dims -> existsb is_str items = false.
Proof.
  revert dims. induction items as [|o items IH]; intros dims H; [reflexivity|].
  simpl in H. destruct (to_prim_expr o) as [d|] eqn:Ho; [|discriminate].
  destruct (mapM to_prim_expr items) as [ds|] eqn:Hi; [|discriminate].
  simpl. rewrite (to_prim_expr_not_str o d Ho). exact (IH ds eq_refl).
Qed.

Lemma to_prim_expr_raises (o : PyObj) (e : exn) :
  to_prim_expr o = Raise e -> e = TypeError "expected a PrimExpr".
Proof. destruct o; simpl; intros H; try discriminate; congruence. Qed.

Lemma dims_raise (items : list PyObj) (e : exn) :
  mapM to_prim_expr items = Raise e -> e = TypeError "expected a PrimExpr".
Proof.
  induction items as [|o items IH]; simpl; [discriminate|].
  destruct (to_prim_expr o) as [d|e'] eqn:Ho; simpl.
  - destruct (mapM to_prim_expr items) as [ds|e'']; simpl; [discriminate|].
    intros [= <-]. apply IH. reflexivity.
  - intros [= <-]. exact (to_prim_expr_raises o e' Ho).
Qed.

Section eval_shape.

Variable py_eval : string -> Globals -> result PyObj.

(** Without a string among them, the dimensions are never evaluated. *)
Lemma eval_shape_no_str (items : list PyObj) (dict_globals : option Globals) :
  existsb is_str items = false ->
  mapM (fun s => _eval_shape py_eval s dict_globals) items = Ok items.
Proof.
  intros H. apply mapM_fixed_points.
  induction items as [|o items IH]; constructor.
  - simpl in H. apply orb_false_iff in H. destruct H as [Ho _].
    destruct o; try reflexivity. discriminate.
  - apply IH. simpl in H. apply orb_false_iff in H. tauto.
Qed.

End eval_shape.

(** X1.  Whatever [Tensor] is given, the proxy it returns has a shape that
    is [None], a list or a tuple, which can therefore be iterated; the
    proxy has the [ndim] given; and a dtype that was given is the proxy's
    dtype. *)
Theorem Tensor_postcondition (py_str : PyObj -> string) (shape : PyObj)
    (dtype : option string) (ndim : Z) (p : TensorProxy) :
  Tensor py_str shape dtype ndim = Ok p ->
  (Entry.shape p = PyNone \/ is_tuple_or_list (Entry.shape p) = true) /\
  (Entry.shape p <> PyNone -> exists items, py_iter (Entry.shape p) = Ok items) /\
  Entry.ndim p = ndim /\
  (forall d, dtype = Some d -> Entry.dtype p = Some d).
Proof.
  unfold Tensor.
  destruct shape as [|s|z|items|items|entries|[v|name]]; simpl;
    try discriminate;
    try (destruct (Nat.eqb _ 0)); destruct dtype; simpl;
    try discriminate;
    intros [= <-]; simpl; repeat split; eauto; try congruence.
Qed.

Lemma Tensor_postcondition_witness :
  let p := MkTensorProxy (PyTuple [PyInt 2; PyStr "n"]) (Some "float32") 2 in
  (Entry.shape p = PyNone \/ is_tuple_or_list (Entry.shape p) = true) /\
  Entry.ndim p = 2.
Proof.
  intros p.
  destruct (Tensor_postcondition (fun _ => "None") (PyTuple [PyInt 2; PyStr "n"])
              (Some "float32") 2 p eq_refl) as (H1 & _ & H2 & _).
  split; assumption.
Defined.

Section tensor_as_struct_info.

Variable py_eval : string -> Globals -> result PyObj.
Variable py_str : PyObj -> string.

Local Abbreviation Tensor := (Tensor py_str).

(** X2.  A shape given to [Tensor] as a list or tuple of [PrimExpr]s and
    [int]s converts without globals to the [TensorStructInfo] of those
    dimensions (the empty shape included: a scalar tensor), with the dtype
    and ndim given; a non-empty string given alone converts to a tensor of
    unknown shape with that dtype. *)
Theorem Tensor_asobject (shape : PyObj) (dtype : option string) (ndim : Z) :
  (forall items dims,
     shape = PyList items \/ shape = PyTuple items ->
     mapM to_prim_expr items = Ok dims ->
     exists p, Tensor shape dtype ndim = Ok p /\
               asobject py_eval (ProxyTensor p)
               = Ok (TensorStructInfo (Some dims) dtype ndim)) /\
  (forall s,
     shape = PyStr s -> s <> "" -> dtype = None ->
     exists p, Tensor shape dtype ndim = Ok p /\
               asobject py_eval (ProxyTensor p)
               = Ok (TensorStructInfo None (Some s) ndim)).
Proof.
  split.
  - intros items dims Hshape Hdims.
    pose proof (dims_no_str items dims Hdims) as Hstr.
    assert (Hconv : forall sh, py_iter sh = Ok items -> is_none sh = false ->
              TensorProxy_as_struct_info py_eval (MkTensorProxy sh dtype ndim) None
              = Ok (TensorStructInfo (Some dims) dtype ndim)).
    { intros sh Hiter Hnone. unfold TensorProxy_as_struct_info. simpl.
      rewrite Hnone, Hiter. simpl. rewrite Hstr. simpl.
      rewrite (eval_shape_no_str py_eval items None Hstr). simpl.
      rewrite Hdims. reflexivity. }
    destruct items as [|o items'].
    + exists (MkTensorProxy (PyList []) dtype ndim). split.
      * destruct Hshape as [-> | ->]; unfold Entry.Tensor; simpl; destruct dtype; reflexivity.
      * apply (Hconv (PyList [])); reflexivity.
    + exists (MkTensorProxy shape dtype ndim). split.
      * destruct Hshape as [-> | ->]; unfold Entry.Tensor; simpl; destruct dtype; reflexivity.
      * destruct Hshape as [-> | ->]; apply Hconv; reflexivity.
  - intros s -> Hs ->. exists (MkTensorProxy PyNone (Some s) ndim). split.
    + destruct s; [congruence | reflexivity].
    + reflexivity.
Qed.

(** X3.  Without globals, [TensorProxy.as_struct_info] raises the
    string-defined-shape [ValueError] exactly when the shape has a string
    among its dimensions, whatever the other dimensions are. *)
Theorem string_dimension_needs_globals (self : TensorProxy) :
  TensorProxy_as_struct_info py_eval self None = Raise String_defined_shape_error <->
  is_none (shape self) = false /\
  exists items, py_iter (shape self) = Ok items /\ existsb is_str items = true.
Proof.
  unfold TensorProxy_as_struct_info. split.
  - destruct (is_none (shape self)); [discriminate|].
    destruct (py_iter (shape self)) as [items|e] eqn:Hiter; simpl.
    + destruct (existsb is_str items) eqn:Hstr; simpl; [eauto|].
      rewrite (eval_shape_no_str py_eval items None Hstr). simpl.
      destruct (mapM to_prim_expr items) as [dims|e] eqn:Hd; simpl; [discriminate|].
      apply dims_raise in Hd. subst e. discriminate.
    + intros [= ->]. destruct (shape self) as [| | | | | |[v|name]]; discriminate.
  - intros (Hnone & items & Hiter & Hstr).
    rewrite Hnone, Hiter. simpl. rewrite Hstr. reflexivity.
Qed.

End tensor_as_struct_info.

(** X4.  Without globals a [TensorProxy] never evaluates a string: what
    [as_struct_info] returns or raises does not depend on [eval]. *)
Theorem as_struct_info_without_globals_never_evaluates
    (py_eval py_eval' : string -> Globals -> result PyObj) (self : TensorProxy) :
  TensorProxy_as_struct_info py_eval self None
  = TensorProxy_as_struct_info py_eval' self None.
Proof.
  unfold TensorProxy_as_struct_info.
  destruct (is_none (shape self)); [reflexivity|].
  destruct (py_iter (shape self)) as [items|e]; simpl; [|reflexivity].
  destruct (existsb is_str items) eqn:Hstr; simpl; [reflexivity|].
  rewrite !(eval_shape_no_str _ items None Hstr). reflexivity.
Qed.

Lemma Tensor_asobject_witness :
  exists p,
    Tensor (fun _ => "None") (PyTuple [PyInt 2; PyPrimExpr (TirVar "n")])
           (Some "float32") 2 = Ok p /\
    asobject (fun _ _ => Raise (InternalError "eval")) (ProxyTensor p)
    = Ok (TensorStructInfo (Some [IntImm 2; TirVar "n"]) (Some "float32") 2).
Proof.
  exact (proj1 (Tensor_asobject (fun _ _ => Raise (InternalError "eval"))
                  (fun _ => "None")
                  (PyTuple [PyInt 2; PyPrimExpr (TirVar "n")]) (Some "float32") 2)
           [PyInt 2; PyPrimExpr (TirVar "n")] [IntImm 2; TirVar "n"]
           (or_intror eq_refl) eq_refl).
Defined.

Lemma string_dimension_needs_globals_witness :
  TensorProxy_as_struct_info (fun _ _ => Raise (InternalError "eval"))
    (MkTensorProxy (PyList [PyInt 2; PyStr "n"]) None 2) None
  = Raise String_defined_shape_error.
Proof.
  apply (string_dimension_needs_globals (fun _ _ => Raise (InternalError "eval"))
           (MkTensorProxy (PyList [PyInt 2; PyStr "n"]) None 2)).
  split; [reflexivity|]. exists [PyInt 2; PyStr "n"]. split; reflexivity.
Defined.

(** *** Induction over proxies *)

Section proxy_ind.

Variable P : StructInfoProxy -> Prop.

Hypothesis HBase : P BaseProxy.
Hypothesis HTensor : forall p, P (ProxyTensor p).
Hypothesis HCallable : forall params ret,
  Forall P params -> P ret -> P (CallableProxy params ret).
Hypothesis HTuple : forall fields, Forall P fields -> P (TupleProxy fields).
Hypothesis HShape : forall values ndim, P (ShapeProxy values ndim).
Hypothesis HObject : P ObjectProxy.
Hypothesis HPrim : forall dtype, P (PrimProxy dtype).

Fixpoint proxy_ind (self : StructInfoProxy) : P self :=
  match self with
  | BaseProxy => HBase
  | ProxyTensor p => HTensor p
  | CallableProxy params ret =>
      HCallable params ret
        ((fix all (l : list StructInfoProxy) : Forall P l :=
            match l with
            | [] => @List.Forall_nil _ P
            | x :: l' => @List.Forall_cons _ P x l' (proxy_ind x) (all l')
            end) params)
        (proxy_ind ret)
  | TupleProxy fields =>
      HTuple fields
        ((fix all (l : list StructInfoProxy) : Forall P l :=
            match l with
            | [] => @List.Forall_nil _ P
            | x :: l' => @List.Forall_cons _ P x l' (proxy_ind x) (all l')
            end) fields)
  | ShapeProxy values ndim => HShape values ndim
  | ObjectProxy => HObject
  | PrimProxy dtype => HPrim dtype
  end.

End proxy_ind.

Section proxies.

Variable py_eval : string -> Globals -> result PyObj.

Lemma as_struct_info_callable params ret g :
  as_struct_info py_eval (CallableProxy params ret) g =
  bind (mapM (fun p => as_struct_info py_eval p g) params)
       (fun params' => bind (as_struct_info py_eval ret g)
                            (fun ret' => Ok (FuncStructInfo params' ret'))).
Proof.
  simpl. f_equal.
  induction params as [|p ps IH]; simpl; [reflexivity|]. rewrite IH. reflexivity.
Qed.

Lemma as_struct_info_tuple fields g :
  as_struct_info py_eval (TupleProxy fields) g =
  bind (mapM (fun p => as_struct_info py_eval p g) fields)
       (fun fields' => Ok (TupleStructInfo fields')).
Proof.
  simpl. f_equal.
  induction fields as [|p ps IH]; simpl; [reflexivity|]. rewrite IH. reflexivity.
Qed.

Lemma as_struct_info_shape values ndim g :
  as_struct_info py_eval (ShapeProxy values ndim) g =
  match values with
  | Some (v :: vs) =>
      bind (mapM (fun v => _eval_shape py_eval v g) (v :: vs))
           (fun values' => bind (mapM to_prim_expr values')
                                (fun dims => Ok (ShapeStructInfo (Some dims) ndim)))
  | _ => Ok (ShapeStructInfo None ndim)
  end.
Proof. reflexivity. Qed.

Lemma eval_then_convert g (items items' : list PyObj) (dims : list PrimExpr) :
  Forall2 (fun v v' => _eval_shape py_eval v g = Ok v') items items' ->
  Forall2 (fun v' d => to_prim_expr v' = Ok d) items' dims ->
  Forall2 (fun v d => is_str v = false -> to_prim_expr v = Ok d) items dims.
Proof.
  intros H. revert dims.
  induction H as [|v v' l l' Hv _ IH]; intros dims Hd; inversion Hd; subst;
    constructor; [|auto].
  intros Hs. destruct v; try discriminate Hs; simpl in Hv; injection Hv as <-;
    assumption.
Qed.

Lemma Forall2_from_mapM (Q : StructInfoProxy -> StructInfo -> Prop) g
    (ps : list StructInfoProxy) (ss : list StructInfo) :
  Forall (fun p => forall s, as_struct_info py_eval p g = Ok s -> Q p s) ps ->
  mapM (fun p => as_struct_info py_eval p g) ps = Ok ss ->
  Forall2 Q ps ss.
Proof.
  intros Hall Hm. apply IRBuilderProps.mapM_Forall2 in Hm.
  induction Hm as [|p s ps ss Hp _ IH]; [constructor|].
  inversion Hall; subst. constructor; auto.
Qed.

(** X5.  When [as_struct_info] returns, the struct info has the form of the
    proxy: a tuple proxy gives a tuple with one field per field, a callable
    proxy a function with one parameter per parameter, a tensor proxy a
    tensor with the proxy's dtype and ndim whose shape is unknown exactly
    when the proxy's is [None], and a shape proxy a shape with the proxy's
    ndim, whose values are unknown exactly when the proxy has none or an
    empty list of them and are otherwise one per value of the proxy, the
    values that are not strings being kept as they are. *)
Theorem as_struct_info_mirrors (self : StructInfoProxy) (g : option Globals)
    (s : StructInfo) :
  as_struct_info py_eval self g = Ok s -> mirrors self s.
Proof.
  revert s. induction self as [|p|params ret IHp IHr|fields IH|values ndim| |dtype]
    using proxy_ind; intros s Hs.
  - discriminate.
  - simpl in Hs. unfold TensorProxy_as_struct_info in Hs.
    destruct (is_none (shape p)) eqn:Hnone.
    + injection Hs as <-. constructor. destruct (shape p); try discriminate. tauto.
    + destruct (py_iter (shape p)) as [items|]; [|discriminate]. simpl in Hs.
      destruct (_ && _); [discriminate|].
      destruct (mapM _ items) as [items'|]; [|discriminate]. simpl in Hs.
      destruct (mapM to_prim_expr items') as [dims|]; [|discriminate].
      injection Hs as <-. constructor.
      split; [discriminate | intros E; rewrite E in Hnone; discriminate].
  - rewrite as_struct_info_callable in Hs.
    destruct (mapM _ params) as [params'|] eqn:Hm; [|discriminate]. simpl in Hs.
    destruct (as_struct_info py_eval ret g) as [ret'|] eqn:Hr; [|discriminate].
    injection Hs as <-. constructor.
    + exact (Forall2_from_mapM mirrors g params params' IHp Hm).
    + apply IHr. reflexivity.
  - rewrite as_struct_info_tuple in Hs.
    destruct (mapM _ fields) as [fields'|] eqn:Hm; [|discriminate].
    injection Hs as <-. constructor.
    exact (Forall2_from_mapM mirrors g fields fields' IH Hm).
  - rewrite as_struct_info_shape in Hs. destruct values as [[|v vs]|].
    + injection Hs as <-. apply mirrors_shape; [tauto | discriminate].
    + destruct (mapM _ (v :: vs)) as [values'|] eqn:Hm; [|discriminate]. simpl in Hs.
      destruct (mapM to_prim_expr values') as [dims|] eqn:Hd; [|discriminate].
      injection Hs as <-. apply mirrors_shape.
      * split; [discriminate | intros [H | H]; discriminate H].
      * intros ds [= <-]. exists (v :: vs). split; [reflexivity|].
        apply IRBuilderProps.mapM_Forall2 in Hm. apply IRBuilderProps.mapM_Forall2 in Hd.
        exact (eval_then_convert g _ _ _ Hm Hd).
    + injection Hs as <-. apply mirrors_shape; [tauto | discriminate].
  - injection Hs as <-. constructor.
  - injection Hs as <-. constructor.
Qed.

End proxies.

(** X6.  A proxy in which no dimension of a tensor and no value of a shape
    is written as a string converts the same way whatever the globals and
    whatever [eval] does: globals only matter for dimensions written as
    strings. *)
Theorem string_free_ignores_globals
    (py_eval py_eval' : string -> Globals -> result PyObj) (self : StructInfoProxy)
    (g g' : option Globals) :
  string_free self = true ->
  as_struct_info py_eval self g = as_struct_info py_eval' self g'.
Proof.
  induction self as [|p|params ret IHp IHr|fields IH|values ndim| |dtype]
    using proxy_ind; intros Hfree; try reflexivity.
  - simpl. simpl in Hfree. unfold TensorProxy_string_free in Hfree.
    unfold TensorProxy_as_struct_info.
    destruct (is_none (shape p)); [reflexivity|].
    destruct (py_iter (shape p)) as [items|]; [|reflexivity]. simpl.
    apply negb_true_iff in Hfree. rewrite Hfree, !andb_false_r.
    rewrite (eval_shape_no_str py_eval items g Hfree).
    rewrite (eval_shape_no_str py_eval' items g' Hfree). reflexivity.
  - simpl in Hfree. apply andb_true_iff in Hfree. destruct Hfree as [Hps Hr].
    rewrite !as_struct_info_callable. rewrite forallb_forall in Hps.
    rewrite (mapM_ext _ (fun p => as_struct_info py_eval' p g') params).
    + rewrite (IHr Hr). reflexivity.
    + rewrite Forall_forall in IHp. apply Forall_forall. intros p Hin.
      apply IHp; [exact Hin|]. apply Hps. apply list_elem_of_In. exact Hin.
  - simpl in Hfree. rewrite !as_struct_info_tuple. rewrite forallb_forall in Hfree.
    rewrite (mapM_ext _ (fun p => as_struct_info py_eval' p g') fields); [reflexivity|].
    rewrite Forall_forall in IH. apply Forall_forall. intros p Hin.
    apply IH; [exact Hin|]. apply Hfree. apply list_elem_of_In. exact Hin.
  - rewrite !as_struct_info_shape. destruct values as [[|v vs]|]; try reflexivity.
    simpl in Hfree. apply negb_true_iff in Hfree.
    rewrite (eval_shape_no_str py_eval (v :: vs) g Hfree).
    rewrite (eval_shape_no_str py_eval' (v :: vs) g' Hfree). reflexivity.
Qed.

Lemma as_struct_info_mirrors_witness :
  mirrors (TupleProxy [ProxyTensor (MkTensorProxy (PyList [PyInt 3]) (Some "int32") 1);
                       ShapeProxy (Some []) 0;
                       ShapeProxy (Some [PyStr "n"; PyInt 2]) 2])
          (TupleStructInfo [TensorStructInfo (Some [IntImm 3]) (Some "int32") 1;
                            ShapeStructInfo None 0;
                            ShapeStructInfo (Some [IntImm 4; IntImm 2]) 2]).
Proof.
  exact (as_struct_info_mirrors (fun _ _ => Ok (PyInt 4))
           (TupleProxy [ProxyTensor (MkTensorProxy (PyList [PyInt 3]) (Some "int32") 1);
                        ShapeProxy (Some []) 0;
                        ShapeProxy (Some [PyStr "n"; PyInt 2]) 2])
           None _ eq_refl).
Defined.

Lemma string_free_ignores_globals_witness :
  as_struct_info (fun _ _ => Raise (InternalError "eval"))
    (CallableProxy [ProxyTensor (MkTensorProxy (PyList [PyInt 3]) None 1);
                    ShapeProxy (Some [PyInt 2]) 1] ObjectProxy)
    None
  = as_struct_info (fun _ _ => Ok (PyInt 0))
      (CallableProxy [ProxyTensor (MkTensorProxy (PyList [PyInt 3]) None 1);
                      ShapeProxy (Some [PyInt 2]) 1] ObjectProxy)
      (Some [("n", PyInt 4)]).
Proof.
  exact (string_free_ignores_globals _ _
           (CallableProxy [ProxyTensor (MkTensorProxy (PyList [PyInt 3]) None 1);
                           ShapeProxy (Some [PyInt 2]) 1]
                          ObjectProxy)
           None (Some [("n", PyInt 4)]) eq_refl).
Defined.

(** *** Symbolic variables *)

Section symbolic_vars.

Variable isidentifier : string -> bool.

Lemma elem_of_identifiers_of (items : list PyObj) (x : string) :
  x ∈ identifiers_of isidentifier items <->
  PyStr x ∈ items /\ isidentifier x = true.
Proof.
  unfold identifiers_of. rewrite elem_of_list_to_set, list_elem_of_omap. split.
  - intros (o & Hin & Ho). destruct o as [|s| | | | |]; try discriminate.
    destruct (isidentifier s) eqn:Hs; [|discriminate].
    injection Ho as ->. auto.
  - intros (Hin & Hx). exists (PyStr x). rewrite Hx. auto.
Qed.

Lemma identifiers_of_no_str (items : list PyObj) :
  existsb is_str items = false -> identifiers_of isidentifier items = ∅.
Proof.
  intros H. unfold identifiers_of.
  replace (omap _ items) with (@nil string); [reflexivity|].
  induction items as [|o items IH]; [reflexivity|].
  simpl in H. apply orb_false_iff in H. destruct H as [Ho Hitems].
  destruct o; try discriminate; simpl; auto.
Qed.

(** X7.  The symbolic variables of a [TensorProxy] are exactly the
    dimensions written as strings that are identifiers; a proxy of unknown
    shape has none. *)
Theorem TensorProxy_symbolic_vars (self : TensorProxy) :
  (shape self = PyNone ->
     TensorProxy_get_symbolic_vars isidentifier self = Ok ∅) /\
  (forall items,
     shape self <> PyNone -> py_iter (shape self) = Ok items ->
     exists vars,
       TensorProxy_get_symbolic_vars isidentifier self = Ok vars /\
       forall x, x ∈ vars <-> PyStr x ∈ items /\ isidentifier x = true).
Proof.
  unfold TensorProxy_get_symbolic_vars. split.
  - intros ->. reflexivity.
  - intros items Hnone Hiter.
    destruct (shape self) as [| | | | | |[v|name]]; try congruence; simpl in *;
      rewrite ?Hiter;
      try discriminate; injection Hiter as <-;
      eexists; (split; [reflexivity | apply elem_of_identifiers_of]).
Qed.

Lemma get_symbolic_vars_tuple (fields : list StructInfoProxy) :
  get_symbolic_vars isidentifier (TupleProxy fields) =
  bind (mapM (get_symbolic_vars isidentifier) fields) (fun vars => Ok (⋃ vars)).
Proof.
  simpl. f_equal.
  induction fields as [|p ps IH]; simpl; [reflexivity|]. rewrite IH. reflexivity.
Qed.

Lemma get_symbolic_vars_callable (params : list StructInfoProxy) (ret : StructInfoProxy) :
  get_symbolic_vars isidentifier (CallableProxy params ret) =
  get_symbolic_vars isidentifier (TupleProxy params).
Proof. reflexivity. Qed.

(** X8.  The symbolic variables of a callable proxy are those of its
    parameters and nothing else: a name is among them exactly when it is a
    symbolic variable of some parameter, and the return proxy plays no part
    (a name that occurs only there is not reported). *)
Theorem CallableProxy_symbolic_vars (params : list StructInfoProxy)
    (ret : StructInfoProxy) (vars : gset string) :
  get_symbolic_vars isidentifier (CallableProxy params ret) = Ok vars ->
  (forall x, x ∈ vars <->
             exists p vp, p ∈ params /\
                          get_symbolic_vars isidentifier p = Ok vp /\ x ∈ vp) /\
  (forall ret', get_symbolic_vars isidentifier (CallableProxy params ret') = Ok vars) /\
  get_symbolic_vars isidentifier (TupleProxy params) = Ok vars.
Proof.
  intros H. split; [| split; [intros ret' |]]; try exact H.
  rewrite get_symbolic_vars_callable, get_symbolic_vars_tuple in H.
  destruct (mapM _ params) as [vs|] eqn:Hm; [|discriminate].
  injection H as <-. apply IRBuilderProps.mapM_Forall2 in Hm.
  intros x. rewrite elem_of_union_list. split.
  - intros (X & HX & Hx). apply list_elem_of_lookup in HX. destruct HX as [i Hi].
    destruct (Forall2_lookup_r _ _ _ _ _ Hm Hi) as (p & Hp & Hpv).
    exists p, X. split; [|auto]. apply list_elem_of_lookup. eauto.
  - intros (p & vp & Hin & Hp & Hx). apply list_elem_of_lookup in Hin.
    destruct Hin as [i Hi].
    destruct (Forall2_lookup_l _ _ _ _ _ Hm Hi) as (X & HX & HpX).
    exists X. split; [apply list_elem_of_lookup; eauto|]. congruence.
Qed.

Lemma no_symbolic_vars_list (ps : list StructInfoProxy) :
  Forall (fun p => get_symbolic_vars isidentifier p = Ok ∅) ps ->
  bind (mapM (get_symbolic_vars isidentifier) ps) (fun vars => Ok (⋃ vars)) = Ok ∅.
Proof.
  intros H.
  assert (E : exists vars, mapM (get_symbolic_vars isidentifier) ps = Ok vars /\
                           ⋃ vars = (∅ : gset string)).
  { induction H as [|p ps Hp _ (vars & Hm & Hu)].
    - exists []. split; reflexivity.
    - exists (∅ :: vars). simpl. rewrite Hp, Hm. split; [reflexivity|].
      rewrite Hu. apply (left_id_L ∅ (∪)). }
  destruct E as (vars & -> & Hu). simpl. rewrite Hu. reflexivity.
Qed.

Lemma symbolic_vars_bounded_list (ps : list StructInfoProxy)
    (bound : StructInfoProxy -> list string) :
  Forall (fun p => exists vars, get_symbolic_vars isidentifier p = Ok vars /\
                                forall x, x ∈ vars -> x ∈ bound p) ps ->
  exists vars,
    bind (mapM (get_symbolic_vars isidentifier) ps) (fun vs => Ok (⋃ vs)) = Ok vars /\
    forall x, x ∈ vars -> x ∈ concat (map bound ps).
Proof.
  induction 1 as [|p ps (vp & Hp & Hbound) _ (vars & Hm & Hvars)].
  - exists ∅. split; [reflexivity|]. intros x Hx. set_solver.
  - simpl. rewrite Hp. simpl.
    destruct (mapM (get_symbolic_vars isidentifier) ps) as [vs|]; [|discriminate].
    simpl in *. injection Hm as <-. exists (vp ∪ ⋃ vs). split; [reflexivity|].
    intros x Hx. apply elem_of_app. apply elem_of_union in Hx.
    destruct Hx as [Hx|Hx]; [left; auto | right; auto].
Qed.

(** X9.  When a proxy converts without globals ([asobject] returns), none of
    its symbolic variables comes from a tensor dimension: every name that
    [get_symbolic_vars] reports is written as a value of a shape proxy
    inside it, so a proxy without such values has no symbolic variable.
    (A [TensorProxy] refuses strings without globals; a [ShapeProxy]
    evaluates them.) *)
Theorem asobject_symbolic_vars_from_shapes
    (py_eval : string -> Globals -> result PyObj)
    (self : StructInfoProxy) (s : StructInfo) :
  asobject py_eval self = Ok s ->
  exists vars,
    get_symbolic_vars isidentifier self = Ok vars /\
    (forall x, x ∈ vars -> x ∈ shape_strings self) /\
    (shape_strings self = [] -> vars = ∅).
Proof.
  intros Hs.
  enough (H : exists vars, get_symbolic_vars isidentifier self = Ok vars /\
                           forall x, x ∈ vars -> x ∈ shape_strings self).
  { destruct H as (vars & Hrun & Hb). exists vars. split; [exact Hrun|].
    split; [exact Hb|]. intros E. apply leibniz_equiv. intros x. split.
    - intros Hx. apply Hb in Hx. rewrite E in Hx. inversion Hx.
    - intros Hx. set_solver. }
  unfold asobject in Hs. revert s Hs.
  induction self as [|p|params ret IHp IHr|fields IH|values ndim| |dtype]
    using proxy_ind; intros s Hs.
  - discriminate.
  - exists ∅. split; [|intros x Hx; set_solver].
    simpl in *. unfold TensorProxy_as_struct_info in Hs.
    unfold TensorProxy_get_symbolic_vars.
    destruct (is_none (shape p)); [reflexivity|].
    destruct (py_iter (shape p)) as [items|]; [|discriminate]. simpl in *.
    destruct (existsb is_str items) eqn:Hstr; [discriminate|].
    rewrite (identifiers_of_no_str items Hstr). reflexivity.
  - rewrite as_struct_info_callable in Hs.
    destruct (mapM _ params) as [params'|] eqn:Hm; [|discriminate].
    rewrite get_symbolic_vars_callable, get_symbolic_vars_tuple.
    destruct (symbolic_vars_bounded_list params shape_strings) as (vars & Hrun & Hb).
    + apply IRBuilderProps.mapM_Forall2 in Hm.
      clear Hs. induction Hm as [|q q' qs qs' Hq _ IHm]; [constructor|].
      inversion IHp; subst. constructor; eauto.
    + exists vars. split; [exact Hrun|]. intros x Hx. simpl.
      apply elem_of_app. left. auto.
  - rewrite as_struct_info_tuple in Hs.
    destruct (mapM _ fields) as [fields'|] eqn:Hm; [|discriminate].
    rewrite get_symbolic_vars_tuple.
    destruct (symbolic_vars_bounded_list fields shape_strings) as (vars & Hrun & Hb).
    + apply IRBuilderProps.mapM_Forall2 in Hm.
      clear Hs. induction Hm as [|q q' qs qs' Hq _ IHm]; [constructor|].
      inversion IH; subst. constructor; eauto.
    + exists vars. split; [exact Hrun|]. exact Hb.
  - destruct values as [items|]; simpl.
    + eexists. split; [reflexivity|]. intros x Hx.
      apply elem_of_identifiers_of in Hx. destruct Hx as [Hin _].
      unfold strings_of. apply list_elem_of_omap. exists (PyStr x). auto.
    + exists ∅. split; [reflexivity|]. intros x Hx. set_solver.
  - exists ∅. split; [reflexivity|]. intros x Hx. set_solver.
  - exists ∅. split; [reflexivity|]. intros x Hx. set_solver.
Qed.

End symbolic_vars.

Lemma TensorProxy_symbolic_vars_witness :
  let isid := fun s : string => negb (String.eqb s "2") in
  exists vars,
    TensorProxy_get_symbolic_vars isid
      (MkTensorProxy (PyList [PyStr "n"; PyInt 4; PyStr "2"]) None 3) = Ok vars /\
    "n" ∈ vars.
Proof.
  intros isid.
  destruct (proj2 (TensorProxy_symbolic_vars isid
                     (MkTensorProxy (PyList [PyStr "n"; PyInt 4; PyStr "2"]) None 3))
              [PyStr "n"; PyInt 4; PyStr "2"]) as (vars & Hrun & Hin).
  - discriminate.
  - reflexivity.
  - exists vars. split; [exact Hrun|]. apply Hin. split; [|reflexivity].
    constructor.
Defined.

Lemma CallableProxy_symbolic_vars_witness :
  let isid := fun s : string => negb (String.eqb s "2") in
  let n := ProxyTensor (MkTensorProxy (PyList [PyStr "n"]) None 1) in
  let m := ProxyTensor (MkTensorProxy (PyList [PyStr "m"]) None 1) in
  get_symbolic_vars isid (CallableProxy [n] n) = Ok {[ "n" ]} /\
  get_symbolic_vars isid (CallableProxy [n] m) = Ok {[ "n" ]}.
Proof.
  intros isid n m.
  assert (H : get_symbolic_vars isid (CallableProxy [n] n) = Ok {[ "n" ]})
    by (vm_compute; reflexivity).
  split; [exact H|].
  exact (proj1 (proj2 (CallableProxy_symbolic_vars isid [n] n _ H)) m).
Defined.

Lemma asobject_symbolic_vars_from_shapes_witness :
  let py_eval := fun (_ : string) (_ : Globals) => Ok (PyInt 1) in
  let tensor := ProxyTensor (MkTensorProxy (PyList [PyInt 3]) None 1) in
  (exists vars,
     get_symbolic_vars (fun _ => true) (TupleProxy [tensor; ObjectProxy]) = Ok vars /\
     vars = ∅) /\
  (exists vars,
     get_symbolic_vars (fun _ => true)
       (TupleProxy [tensor; ShapeProxy (Some [PyStr "n"]) 1]) = Ok vars /\
     forall x, x ∈ vars -> x ∈ ["n"]).
Proof.
  intros py_eval tensor. split.
  - destruct (asobject_symbolic_vars_from_shapes (fun _ => true) py_eval
                (TupleProxy [tensor; ObjectProxy]) _ eq_refl)
      as (vars & Hrun & _ & Hnone).
    exists vars. split; [exact Hrun | exact (Hnone eq_refl)].
  - destruct (asobject_symbolic_vars_from_shapes (fun _ => true) py_eval
                (TupleProxy [tensor; ShapeProxy (Some [PyStr "n"]) 1]) _ eq_refl)
      as (vars & Hrun & Hb & _).
    exists vars. split; [exact Hrun | exact Hb].
Defined.

End EntryFacts.

(* ================================================================== *)
(** * Further properties of ir.py *)
(* ================================================================== *)

Module IRBuilderFacts.

Import Entry IRBuilder.

(** *** The keyword dict *)

Lemma dict_get_pop (k : string) (d : Kwargs) : dict_get k (dict_pop k d) = None.
Proof.
  unfold dict_get, dict_pop.
  induction d as [|[k' v] d IH]; [reflexivity|]. simpl.
  destruct (bool_decide (k' = k)) eqn:E; simpl; [exact IH|].
  rewrite E. exact IH.
Qed.

Lemma dict_pop_In (k k' : string) (v : PyObj) (d : Kwargs) :
  In (k', v) (dict_pop k d) <-> In (k', v) d /\ k' <> k.
Proof.
  unfold dict_pop. rewrite filter_In. simpl.
  rewrite negb_true_iff, bool_decide_eq_false. reflexivity.
Qed.

Lemma dict_get_None_In (k k' : string) (v : PyObj) (d : Kwargs) :
  dict_get k d = None -> In (k', v) d -> k' <> k.
Proof.
  unfold dict_get. intros H Hin.
  destruct (List.find _ d) as [kv|] eqn:F; [discriminate|].
  pose proof (find_none _ _ F _ Hin) as Hf. simpl in Hf.
  apply bool_decide_eq_false in Hf. exact Hf.
Qed.

(** X10.  [call_packed] passes no attribute node when it is given no keyword
    argument.  Given any, it builds one from all of them except
    [attrs_type_key], which names the node type and defaults to
    [DictAttrs]; [attrs_type_key] itself never reaches the node. *)
Theorem call_packed_attrs_spec (make_node : PyObj -> Kwargs -> result Attrs)
    (kwargs : Kwargs) :
  (kwargs = [] -> call_packed_attrs make_node kwargs = Ok None) /\
  (kwargs <> [] ->
   exists key kw,
     call_packed_attrs make_node kwargs = bind (make_node key kw) (fun a => Ok (Some a)) /\
     key = default (PyStr "DictAttrs") (dict_get "attrs_type_key" kwargs) /\
     dict_get "attrs_type_key" kw = None /\
     forall k v, In (k, v) kw <-> In (k, v) kwargs /\ k <> "attrs_type_key").
Proof.
  split.
  - intros ->. reflexivity.
  - intros Hne. unfold call_packed_attrs.
    destruct (dict_get "attrs_type_key" kwargs) as [key|] eqn:Hget.
    + exists key, (dict_pop "attrs_type_key" kwargs). simpl.
      rewrite orb_true_r. split; [reflexivity|]. split; [reflexivity|].
      split; [apply dict_get_pop|]. intros k v. apply dict_pop_In.
    + exists (PyStr "DictAttrs"), kwargs. simpl.
      rewrite bool_decide_eq_false_2 by exact Hne. simpl.
      split; [reflexivity|]. split; [reflexivity|]. split; [exact Hget|].
      intros k v. split; [|tauto]. intros Hin. split; [exact Hin|].
      exact (dict_get_None_In _ k v kwargs Hget Hin).
Qed.

Section call_packed_facts.

Variable py_eval : string -> Globals -> result PyObj.
Variable make_node : PyObj -> Kwargs -> result Attrs.

(** X11.  [call_packed] returns exactly when [sinfo_args] is not [None],
    every element of it converts and the attribute node, if one is needed,
    can be built. *)
Theorem call_packed_returns_iff (func : string) (args : list Expr)
    (sinfo_args : SInfoArgs) (kwargs : Kwargs) :
  (exists call, call_packed py_eval make_node func args sinfo_args kwargs = Ok call) <->
  sinfo_args <> SInfoNone /\
  (exists converted,
     mapM (convert_sinfo_arg py_eval) (normalize_sinfo_args sinfo_args) = Ok converted) /\
  (exists attrs, call_packed_attrs make_node kwargs = Ok attrs).
Proof.
  unfold call_packed. split.
  - intros (call & H). destruct sinfo_args; [discriminate| | |];
      (split; [discriminate|]);
      (destruct (mapM _ _) as [l|]; [|discriminate]); simpl in H;
      (destruct (call_packed_attrs make_node kwargs) as [att|]; [|discriminate]);
      eauto.
  - intros (Hne & (l & Hl) & (a & Ha)).
    destruct sinfo_args; [congruence| | |]; rewrite Hl; simpl; rewrite Ha; simpl; eauto.
Qed.

(** X12.  The elements of [sinfo_args] are converted from left to right
    before anything else is done: the first one that raises decides the
    outcome of [call_packed], whatever the keyword arguments are. *)
Theorem call_packed_first_error (func : string) (args : list Expr)
    (sinfo_args : SInfoArgs) (kwargs : Kwargs)
    (pre post : list SInfoArg) (a : SInfoArg) (e : exn) :
  sinfo_args <> SInfoNone ->
  normalize_sinfo_args sinfo_args = (pre ++ a :: post)%list ->
  Forall (fun x => exists s, convert_sinfo_arg py_eval x = Ok s) pre ->
  convert_sinfo_arg py_eval a = Raise e ->
  call_packed py_eval make_node func args sinfo_args kwargs = Raise e.
Proof.
  intros Hne Hnorm Hpre Ha. unfold call_packed.
  pose proof (EntryFacts.mapM_first_raise _ pre post a e Hpre Ha) as Hm.
  rewrite <- Hnorm in Hm.
  destruct sinfo_args; [congruence| | |]; rewrite Hm; reflexivity.
Qed.

End call_packed_facts.

Lemma call_packed_attrs_spec_witness :
  let make_node := fun (k : PyObj) (kw : Kwargs) =>
                     Ok (MkAttrs "relax.attrs.TakeAttrs" kw) in
  let kwargs := [("axis", PyInt 0); ("attrs_type_key", PyStr "relax.attrs.TakeAttrs")] in
  call_packed_attrs make_node [] = Ok None /\
  exists kw,
    call_packed_attrs make_node kwargs = Ok (Some (MkAttrs "relax.attrs.TakeAttrs" kw)) /\
    dict_get "attrs_type_key" kw = None /\
    In ("axis", PyInt 0) kw.
Proof.
  intros make_node kwargs. split.
  - exact (proj1 (call_packed_attrs_spec make_node []) eq_refl).
  - destruct (proj2 (call_packed_attrs_spec make_node kwargs))
      as (key & kw & Hrun & _ & Hkey & Hin); [discriminate|].
    exists kw. split; [exact Hrun|]. split; [exact Hkey|].
    apply Hin. split; [left; reflexivity | discriminate].
Defined.

Lemma call_packed_first_error_witness :
  call_packed (fun _ _ => Raise (InternalError "eval"))
    (fun _ kw => Ok (MkAttrs "DictAttrs" kw))
    "my_func" [Var 0%nat]
    (SInfoList [Plain (ProxyObj ObjectProxy);
                Plain (ProxyObj (ProxyTensor
                                   (MkTensorProxy (PyList [PyStr "n"]) None 1)))])
    []
  = Raise String_defined_shape_error.
Proof.
  apply (call_packed_first_error _ _ "my_func" [Var 0%nat] _ []
           [Plain (ProxyObj ObjectProxy)] []
           (Plain (ProxyObj (ProxyTensor (MkTensorProxy (PyList [PyStr "n"]) None 1))))).
  - discriminate.
  - reflexivity.
  - repeat constructor. eexists. reflexivity.
  - reflexivity.
Defined.

(** *** The arguments of a wrapped operator *)

Section WArg_ind.

Variable P : WArg -> Prop.

Hypothesis HList : forall items, Forall P items -> P (WList items).
Hypothesis HTuple : forall items, Forall P items -> P (WTuple items).
Hypothesis HDict : forall entries, Forall (fun kv => P (snd kv)) entries -> P (WDict entries).
Hypothesis HFunction : forall call, (forall v, call = Ok v -> P v) -> P (WFunction call).
Hypothesis HProxy : forall p, P (WProxy p).
Hypothesis HOther : forall a, P (WOther a).

Fixpoint WArg_nested_ind (args : WArg) : P args :=
  match args with
  | WList items =>
      HList items
        ((fix all (l : list WArg) : Forall P l :=
            match l with
            | [] => @List.Forall_nil _ P
            | x :: l' => @List.Forall_cons _ P x l' (WArg_nested_ind x) (all l')
            end) items)
  | WTuple items =>
      HTuple items
        ((fix all (l : list WArg) : Forall P l :=
            match l with
            | [] => @List.Forall_nil _ P
            | x :: l' => @List.Forall_cons _ P x l' (WArg_nested_ind x) (all l')
            end) items)
  | WDict entries =>
      HDict entries
        ((fix all (l : list (string * WArg)) : Forall (fun kv => P (snd kv)) l :=
            match l with
            | [] => @List.Forall_nil _ (fun kv => P (snd kv))
            | kv :: l' =>
                @List.Forall_cons _ (fun kv => P (snd kv)) kv l'
                  (WArg_nested_ind (snd kv)) (all l')
            end) entries)
  | WFunction call =>
      HFunction call
        (match call as c return forall v, c = Ok v -> P v with
         | Ok v0 => fun v E =>
             match E in _ = r return match r with Ok v' => P v' | Raise _ => True end with
             | eq_refl => WArg_nested_ind v0
             end
         | Raise e => fun v E =>
             match E in _ = r return match r with Ok v' => P v' | Raise _ => True end with
             | eq_refl => I
             end
         end)
  | WProxy p => HProxy p
  | WOther a => HOther a
  end.

End WArg_ind.

Section convert_facts.

Variable py_eval : string -> Globals -> result PyObj.

Local Abbreviation convert := (_convert_tensor_type py_eval).

Lemma convert_list (items : list WArg) :
  convert (WList items) = bind (mapM convert items) (fun l => Ok (WList l)).
Proof.
  simpl. f_equal.
  induction items as [|x xs IH]; simpl; [reflexivity|]. rewrite IH. reflexivity.
Qed.

Lemma convert_tuple (items : list WArg) :
  convert (WTuple items) = bind (mapM convert items) (fun l => Ok (WTuple l)).
Proof.
  simpl. f_equal.
  induction items as [|x xs IH]; simpl; [reflexivity|]. rewrite IH. reflexivity.
Qed.

Lemma convert_dict (entries : list (string * WArg)) :
  convert (WDict entries) =
  bind (convert_kwargs py_eval entries) (fun l => Ok (WDict l)).
Proof.
  simpl. f_equal. unfold convert_kwargs.
  induction entries as [|[k v] xs IH]; simpl; [reflexivity|]. rewrite IH.
  destruct (convert v); reflexivity.
Qed.

Lemma convert_kwargs_fixed (entries : list (string * WArg)) :
  Forall (fun kv => convert (snd kv) = Ok (snd kv)) entries ->
  convert_kwargs py_eval entries = Ok entries.
Proof.
  intros H. unfold convert_kwargs. apply EntryFacts.mapM_fixed_points.
  eapply Forall_impl; [exact H|]. intros [k v] Hkv. simpl in *.
  rewrite Hkv. reflexivity.
Qed.

Lemma convert_kwargs_keys (entries entries' : list (string * WArg)) :
  convert_kwargs py_eval entries = Ok entries' ->
  Forall2 (fun kv kv' => fst kv' = fst kv /\ convert (snd kv) = Ok (snd kv'))
          entries entries'.
Proof.
  unfold convert_kwargs. intros H. apply IRBuilderProps.mapM_Forall2 in H.
  eapply Forall2_impl; [exact H|]. intros [k v] [k' v'] Hkv. simpl in *.
  destruct (convert v) as [v''|]; [|discriminate]. simpl in Hkv.
  injection Hkv as <- <-. auto.
Qed.

(** An argument in which no function and no proxy occurs is returned as
    it is. *)
Lemma converted_fixed (args : WArg) :
  converted args = true -> convert args = Ok args.
Proof.
  induction args as [items IH|items IH|entries IH|call IH|p|a]
    using WArg_nested_ind; intros Hc; try discriminate; try reflexivity.
  - rewrite convert_list. simpl in Hc. rewrite forallb_forall in Hc.
    rewrite (EntryFacts.mapM_fixed_points convert items); [reflexivity|].
    rewrite Forall_forall in IH. apply Forall_forall. intros x Hin.
    apply IH; [exact Hin|]. apply Hc. apply list_elem_of_In. exact Hin.
  - rewrite convert_tuple. simpl in Hc. rewrite forallb_forall in Hc.
    rewrite (EntryFacts.mapM_fixed_points convert items); [reflexivity|].
    rewrite Forall_forall in IH. apply Forall_forall. intros x Hin.
    apply IH; [exact Hin|]. apply Hc. apply list_elem_of_In. exact Hin.
  - rewrite convert_dict. simpl in Hc. rewrite forallb_forall in Hc.
    rewrite convert_kwargs_fixed; [reflexivity|].
    rewrite Forall_forall in IH. apply Forall_forall. intros kv Hin.
    apply IH; [exact Hin|]. apply Hc. apply list_elem_of_In. exact Hin.
Qed.

Lemma converted_list_fixed (items : list WArg) :
  forallb converted items = true -> convert_args py_eval items = Ok items.
Proof.
  intros H. unfold convert_args. apply EntryFacts.mapM_fixed_points.
  rewrite forallb_forall in H. apply Forall_forall. intros x Hin.
  apply converted_fixed. apply H. apply list_elem_of_In. exact Hin.
Qed.

(** X13.  [_convert_tensor_type] keeps the containers: a list gives a list
    and a tuple a tuple, element by element and of the same length, and a
    dict gives a dict with the same keys in the same order. *)
Theorem convert_keeps_containers (args result : WArg) :
  convert args = Ok result ->
  (forall items, args = WList items ->
     exists items', result = WList items' /\ length items' = length items /\
                    Forall2 (fun x y => convert x = Ok y) items items') /\
  (forall items, args = WTuple items ->
     exists items', result = WTuple items' /\ length items' = length items /\
                    Forall2 (fun x y => convert x = Ok y) items items') /\
  (forall entries, args = WDict entries ->
     exists entries', result = WDict entries' /\
                      map fst entries' = map fst entries).
Proof.
  intros H. split; [| split].
  - intros items ->. rewrite convert_list in H.
    destruct (mapM convert items) as [items'|] eqn:Hm; [|discriminate].
    injection H as <-. exists items'. split; [reflexivity|].
    split; [exact (EntryFacts.mapM_length _ _ _ Hm)|].
    apply IRBuilderProps.mapM_Forall2. exact Hm.
  - intros items ->. rewrite convert_tuple in H.
    destruct (mapM convert items) as [items'|] eqn:Hm; [|discriminate].
    injection H as <-. exists items'. split; [reflexivity|].
    split; [exact (EntryFacts.mapM_length _ _ _ Hm)|].
    apply IRBuilderProps.mapM_Forall2. exact Hm.
  - intros entries ->. rewrite convert_dict in H.
    destruct (convert_kwargs py_eval entries) as [entries'|] eqn:Hm; [|discriminate].
    injection H as <-. exists entries'. split; [reflexivity|].
    apply convert_kwargs_keys in Hm.
    induction Hm as [|kv kv' l l' [Hk _] _ IH]; [reflexivity|].
    simpl. rewrite Hk, IH. reflexivity.
Qed.

(** X14.  When every function among the arguments returns a proxy or a
    plain object, what [_convert_tensor_type] returns holds no function and
    no proxy any more, and converting it again changes nothing. *)
Theorem convert_idempotent (args result : WArg) :
  functions_return_objects args = true ->
  convert args = Ok result ->
  converted result = true /\ convert result = Ok result.
Proof.
  intros Hf H.
  enough (Hc : converted result = true) by (split; [exact Hc | exact (converted_fixed _ Hc)]).
  revert result Hf H.
  induction args as [items IH|items IH|entries IH|call IH|p|a]
    using WArg_nested_ind; intros result Hf H.
  - rewrite convert_list in H.
    destruct (mapM convert items) as [items'|] eqn:Hm; [|discriminate].
    injection H as <-. simpl in *. apply IRBuilderProps.mapM_Forall2 in Hm.
    induction Hm as [|x y xs ys Hxy _ IHm]; [reflexivity|].
    simpl in *. apply andb_true_iff in Hf. destruct Hf as [Hx Hxs].
    inversion IH; subst. apply andb_true_iff. split; eauto.
  - rewrite convert_tuple in H.
    destruct (mapM convert items) as [items'|] eqn:Hm; [|discriminate].
    injection H as <-. simpl in *. apply IRBuilderProps.mapM_Forall2 in Hm.
    induction Hm as [|x y xs ys Hxy _ IHm]; [reflexivity|].
    simpl in *. apply andb_true_iff in Hf. destruct Hf as [Hx Hxs].
    inversion IH; subst. apply andb_true_iff. split; eauto.
  - rewrite convert_dict in H.
    destruct (convert_kwargs py_eval entries) as [entries'|] eqn:Hm; [|discriminate].
    injection H as <-. simpl in *. apply convert_kwargs_keys in Hm.
    induction Hm as [|x y xs ys [_ Hxy] _ IHm]; [reflexivity|].
    simpl in *. apply andb_true_iff in Hf. destruct Hf as [Hx Hxs].
    inversion IH; subst. apply andb_true_iff. split; eauto.
  - simpl in H. destruct call as [v|e]; [|discriminate]. simpl in H.
    destruct v as [| | | |p|a]; try discriminate; simpl in H.
    + destruct (asobject py_eval p); [|discriminate]. injection H as <-. reflexivity.
    + injection H as <-. reflexivity.
  - simpl in H. destruct (asobject py_eval p); [|discriminate].
    injection H as <-. reflexivity.
  - simpl in H. injection H as <-. reflexivity.
Qed.

(** X15.  A wrapped operator called with arguments that hold no function
    and no proxy is the operator itself on those arguments; and when a
    positional argument fails to convert, the wrapped operator raises that
    exception whatever the operator is. *)
Theorem _sinfo_arg_wrapper_spec {R : Type}
    (func : list WArg -> list (string * WArg) -> result R)
    (args : list WArg) (kwargs : list (string * WArg)) :
  (forallb converted args = true ->
   forallb (fun kv => converted (snd kv)) kwargs = true ->
   _sinfo_arg_wrapper py_eval func args kwargs = func args kwargs) /\
  (forall e, convert_args py_eval args = Raise e ->
     forall func' : list WArg -> list (string * WArg) -> result R,
       _sinfo_arg_wrapper py_eval func' args kwargs = Raise e).
Proof.
  unfold _sinfo_arg_wrapper. split.
  - intros Ha Hk. rewrite (converted_list_fixed args Ha). simpl.
    rewrite convert_kwargs_fixed; [reflexivity|].
    rewrite forallb_forall in Hk. apply Forall_forall. intros kv Hin.
    apply converted_fixed. apply Hk. apply list_elem_of_In. exact Hin.
  - intros e He func'. rewrite He. reflexivity.
Qed.

(** X16.  What a function returns is not traversed: unless it is a proxy,
    it is handed on as it is, with the functions and proxies it may
    contain. *)
Theorem function_result_not_traversed (v : WArg) :
  (forall p, v <> WProxy p) ->
  convert (WFunction (Ok v)) = Ok v.
Proof.
  intros Hv. destruct v as [| | | |p|]; try reflexivity.
  exfalso. exact (Hv p eq_refl).
Qed.

End convert_facts.

Lemma function_result_not_traversed_witness :
  let py_eval := fun (_ : string) (_ : Globals) => Raise (InternalError "eval") in
  let v := WList [WProxy ObjectProxy; WFunction (Ok (WOther AtomNone))] in
  converted v = false /\
  _convert_tensor_type py_eval (WFunction (Ok v)) = Ok v.
Proof.
  intros py_eval v. split; [reflexivity|].
  refine (function_result_not_traversed py_eval v _).
  intros p H. discriminate H.
Defined.

Lemma convert_keeps_containers_witness :
  exists items',
    _convert_tensor_type (fun _ _ => Raise (InternalError "eval"))
      (WTuple [WProxy ObjectProxy; WOther (AtomInt 1)]) = Ok (WTuple items') /\
    length items' = 2%nat.
Proof.
  destruct (proj1 (proj2 (convert_keeps_containers
                            (fun _ _ => Raise (InternalError "eval"))
                            (WTuple [WProxy ObjectProxy; WOther (AtomInt 1)])
                            (WTuple [WOther (AtomStructInfo ObjectStructInfo);
                                     WOther (AtomInt 1)]) eq_refl))
              [WProxy ObjectProxy; WOther (AtomInt 1)] eq_refl)
    as (items' & Heq & Hlen & _).
  exists items'. split; [rewrite <- Heq; reflexivity | exact Hlen].
Defined.

Lemma convert_idempotent_witness :
  let py_eval := fun (_ : string) (_ : Globals) => Raise (InternalError "eval") in
  let result := WList [WOther (AtomStructInfo (TensorStructInfo None None (-1)));
                       WOther (AtomStructInfo ObjectStructInfo)] in
  converted result = true /\ _convert_tensor_type py_eval result = Ok result.
Proof.
  intros py_eval result.
  exact (convert_idempotent py_eval
           (WList [WFunction (Ok (WProxy (ProxyTensor (MkTensorProxy PyNone None (-1)))));
                   WProxy ObjectProxy])
           result eq_refl eq_refl).
Defined.

Lemma _sinfo_arg_wrapper_spec_witness :
  let py_eval := fun (_ : string) (_ : Globals) => Raise (InternalError "eval") in
  let func := fun (args : list WArg) (kwargs : list (string * WArg)) =>
                Ok (length args + length kwargs)%nat in
  _sinfo_arg_wrapper py_eval func
    [WOther (AtomExpr (Var 0%nat)); WList [WOther (AtomStructInfo ObjectStructInfo)]]
    [("sinfo_args", WOther (AtomStructInfo ObjectStructInfo))]
  = Ok 3%nat /\
  _sinfo_arg_wrapper py_eval func
    [WProxy (ProxyTensor (MkTensorProxy (PyList [PyStr "n"]) None 1))] []
  = Raise String_defined_shape_error.
Proof.
  intros py_eval func. split.
  - exact (proj1 (_sinfo_arg_wrapper_spec py_eval func
                    [WOther (AtomExpr (Var 0%nat));
                     WList [WOther (AtomStructInfo ObjectStructInfo)]]
                    [("sinfo_args", WOther (AtomStructInfo ObjectStructInfo))])
             eq_refl eq_refl).
  - exact (proj2 (_sinfo_arg_wrapper_spec py_eval func
                    [WProxy (ProxyTensor (MkTensorProxy (PyList [PyStr "n"]) None 1))] [])
             String_defined_shape_error eq_refl func).
Defined.

End IRBuilderFacts.

(* ================================================================== *)
(** ** Further facts about [tvm/relax/expr_functor.py]: what the classes
       themselves do, before any engine runs *)

Module ExprFunctorFacts.

Import Py Relax ExprFunctor.

Lemma In_PyExprVisitor_methods (m : VisitMethod) : In m PyExprVisitor_methods.
Proof.
  destruct m as [|k| | | | | | | | | | |]; try (simpl; tauto).
  destruct k; simpl; tauto.
Qed.

Lemma In_PyExprMutator_methods (m : MutatorMethod) : In m PyExprMutator_methods.
Proof.
  unfold PyExprMutator_methods. apply in_or_app. destruct m as [m|k].
  - left. apply in_map. apply In_PyExprVisitor_methods.
  - right. apply in_map. destruct k; simpl; tauto.
Qed.

Lemma NoDup_map_injective {A B : Type} (f : A -> B) (l : list A) (x y : A) :
  List.NoDup (map f l) -> In x l -> In y l -> f x = f y -> x = y.
Proof.
  induction l as [|a l IH]; simpl; [tauto|].
  intros Hnd Hx Hy Hf. inversion Hnd as [|? ? Hnotin Hnd']; subst.
  destruct Hx as [->|Hx], Hy as [->|Hy]; try reflexivity.
  - exfalso. apply Hnotin. rewrite Hf. apply in_map. exact Hy.
  - exfalso. apply Hnotin. rewrite <- Hf. apply in_map. exact Hx.
  - apply IH; assumption.
Qed.

Lemma PyExprMutator_method_names_NoDup :
  List.NoDup (map mutator_method_name PyExprMutator_methods).
Proof.
  apply NoDup_ListNoDup.
  apply (bool_decide_unpack (NoDup (map mutator_method_name PyExprMutator_methods))).
  vm_compute. reflexivity.
Qed.

(** X17.  Every method of [PyExprMutator] other than the four generic
    dispatchers raises [NotImplementedError] when a subclass that does not
    define it calls it: the per-kind handlers and post-order hooks, and also
    the handlers of bindings, blocks, variable definitions, types and
    spans. *)
Theorem mutator_method_defaults
    (infer : gmap Id VarNode -> Expr -> option ShapeObj * Ty)
    (self : Mutator) (cls : MutatorClass) (m : MutatorMethod)
    (arg : marg_ty m) (st : MutState) :
  is_mutator_dispatcher m = false ->
  cls m = None ->
  mutator_call infer self cls m arg st = Raise NotImplementedError.
Proof.
  intros Hd Hm. unfold mutator_call. rewrite Hm.
  destruct m as [m|k]; [|reflexivity].
  destruct m; try discriminate Hd; reflexivity.
Qed.

Lemma mutator_method_defaults_witness :
  exists self,
    mutator VarEraser = Ok self /\
    mutator_call infer_nothing self VarEraser (Visit visit_var_binding_)
      (VarBinding sample_y (Var 0%nat)) (new_state sample_arena)
    = Raise NotImplementedError.
Proof.
  exists (MkMutator (slot_of VarEraser) (fun m => VarEraser (Visit m))).
  split; [reflexivity|].
  exact (mutator_method_defaults infer_nothing
           (MkMutator (slot_of VarEraser) (fun m => VarEraser (Visit m))) VarEraser
           (Visit visit_var_binding_) (VarBinding sample_y (Var 0%nat))
           (new_state sample_arena) eq_refl eq_refl).
Defined.

(** X18.  [_PyExprVisitor.__init__] takes one parameter [f_<method>] for
    each method that [PyExprVisitor._tvm_metadata] lists, in the order of
    that list, and hands its parameters to [_ffi_api.MakePyExprVisitor] in
    the order it received them. *)
Theorem visitor_constructor_wiring :
  _PyExprVisitor_init_params
  = map (fun m => "f_" ++ visit_method_name m) PyExprVisitor_methods /\
  MakePyExprVisitor_args = _PyExprVisitor_init_params.
Proof. split; reflexivity. Qed.

(** X19.  [_PyExprMutator.__init__] takes the builder and then one
    parameter [f_<method>] for each method that
    [PyExprMutator._tvm_metadata] lists, in the order of that list: the
    parameters of the visitor first, then the post-order hooks kind by
    kind; it hands them to [_ffi_api.MakePyExprMutator] in the order it
    received them. *)
Theorem mutator_constructor_wiring :
  _PyExprMutator_init_params
  = "builder" :: map (fun m => "f_" ++ mutator_method_name m) PyExprMutator_methods /\
  _PyExprMutator_init_params
  = "builder" :: _PyExprVisitor_init_params
      ++ map (fun k => "f_rewrite_" ++ kind_name k ++ "_post_order") all_kinds /\
  MakePyExprMutator_args = _PyExprMutator_init_params.
Proof. split; [| split]; reflexivity. Qed.

(** X20.  The methods listed in [_tvm_metadata] have pairwise different
    names: two methods of a mutator (and so of a visitor) that are called
    the same are the same method, so an override found by its name fills
    one slot only. *)
Theorem method_names_distinct (m m' : MutatorMethod) :
  mutator_method_name m = mutator_method_name m' <-> m = m'.
Proof.
  split; [|intros ->; reflexivity].
  apply (NoDup_map_injective mutator_method_name PyExprMutator_methods).
  - exact PyExprMutator_method_names_NoDup.
  - apply In_PyExprMutator_methods.
  - apply In_PyExprMutator_methods.
Qed.

End ExprFunctorFacts.
